(** * The browser-driving agent loop: the three scripts [agent.py],
    [job_form.py] and [app.py] as pure state-passing programs.

    Python values are embedded as follows.
    - An argument bag ([fc.args]) and a result payload are Python dicts
      with string keys: [gmap string value].
    - A Python [float] is an IEEE binary64 number: [spec_float] with
      precision 53 and maximal exponent 1024.
    - An exception is identified with its message [str(e)]; every
      exception that the code can meet is an instance of [Exception].
    - The browser page, the clock and the terminal are a [World]: the
      chronological trace of the operations attempted so far and the lines
      the operator is still going to type.  What the browser answers is an
      [Env], a function of the trace.
    - Console output ([print], [cprint]) is not part of the model. *)

From Stdlib Require Import ZArith Lia List Bool Ascii String.
From Stdlib Require Import Floats.SpecFloat.
From stdpp Require Import base option list strings pretty gmap fin_maps.

Local Open Scope Z_scope.
Local Open Scope string_scope.
Local Open Scope list_scope.

(** ** Results of Python computations *)

Inductive Exc (A : Type) : Type :=
| Val (a : A)
| Exn (msg : string).
Arguments Val {A} a.
Arguments Exn {A} msg.

#[global] Instance Exc_eq_dec {A} `{EqDecision A} : EqDecision (Exc A).
Proof. solve_decision. Defined.

(** ** Python values carried by action arguments and payloads *)

Inductive value : Type :=
| VInt (z : Z)
| VStr (s : string)
| VBool (b : bool)
| VDict (d : gmap string string).

#[global] Instance value_eq_dec : EqDecision value.
Proof. solve_decision. Defined.

Module Py.

(** [type(v).__name__] *)
Definition type_name (v : value) : string :=
  match v with
  | VInt _ => "int"
  | VStr _ => "str"
  | VBool _ => "bool"
  | VDict _ => "dict"
  end.

(** Truth value of an object in a condition. *)
Definition truthy (v : value) : bool :=
  match v with
  | VInt z => negb (z =? 0)%Z
  | VStr s => negb (String.eqb s EmptyString)
  | VBool b => b
  | VDict d => negb (bool_decide (d = ∅))
  end.

Definition prec : Z := 53.
Definition emax : Z := 1024.

(** [a / b] on two ints, [b > 0]: the quotient rounded once to binary64;
    [OverflowError] when it does not fit. *)
Definition int_truediv (a : Z) (b : positive) : Exc spec_float :=
  let q :=
    match a with
    | Z0 => S754_zero false
    | Zpos m => SFdiv prec emax (S754_finite false m 0) (S754_finite false b 0)
    | Zneg m => SFdiv prec emax (S754_finite true m 0) (S754_finite false b 0)
    end in
  match q with
  | S754_infinity _ => Exn "integer division result too large for a float"
  | _ => Val q
  end.

(** [float(n)] for an int [n]. *)
Definition float_of_int (n : Z) : Exc spec_float :=
  match binary_normalize prec emax n 0 false with
  | S754_infinity _ => Exn "int too large to convert to float"
  | f => Val f
  end.

(** [f * n] for a float [f] and an int [n]. *)
Definition float_mul_int (f : spec_float) (n : Z) : Exc spec_float :=
  match float_of_int n with
  | Val g => Val (SFmul prec emax f g)
  | Exn msg => Exn msg
  end.

(** [int(f)] for a float [f]: truncation towards zero. *)
Definition int_of_float (f : spec_float) : Exc Z :=
  match f with
  | S754_zero _ => Val 0
  | S754_finite s m e =>
      let mag :=
        match e with
        | Zneg p => Z.shiftr (Zpos m) (Zpos p)
        | _ => Z.shiftl (Zpos m) e
        end in
      Val (if s then - mag else mag)
  | S754_infinity _ => Exn "cannot convert float infinity to integer"
  | S754_nan => Exn "cannot convert float NaN to integer"
  end.

(** *** Strings.  A [str] is kept as its UTF-8 bytes; case and white
    space are those of ASCII, which is all that a comparison with an
    ASCII word can see. *)

Definition lower_ascii (c : ascii) : ascii :=
  let n := Ascii.nat_of_ascii c in
  if ((65 <=? n)%nat && (n <=? 90)%nat)%bool then Ascii.ascii_of_nat (n + 32) else c.

(** [s.lower()] *)
Fixpoint lower (s : string) : string :=
  match s with
  | EmptyString => EmptyString
  | String c rest => String (lower_ascii c) (lower rest)
  end.

Definition is_space (c : ascii) : bool :=
  let n := Ascii.nat_of_ascii c in
  (((9 <=? n)%nat && (n <=? 13)%nat) || ((28 <=? n)%nat && (n <=? 32)%nat))%bool.

Fixpoint lstrip_chars (cs : list ascii) : list ascii :=
  match cs with
  | c :: rest => if is_space c then lstrip_chars rest else cs
  | [] => []
  end.

(** [s.strip()], on ASCII text: the white space of Unicode beyond ASCII
    (U+0085, U+00A0, U+2003, ...) is not taken off. *)
Definition strip (s : string) : string :=
  string_of_list_ascii
    (rev (lstrip_chars (rev (lstrip_chars (list_ascii_of_string s))))).

(** [s.startswith(p)] *)
Definition startswith (s p : string) : bool := String.prefix p s.

(** [str(v)].  The text of a dict depends on the insertion order of its
    keys, which a [gmap] does not keep: only its first character is
    given.  The ints of an argument bag come out of the JSON of the reply,
    where Python already refuses more than 4300 digits, so that [str]
    does not refuse them. *)
Definition str (v : value) : string :=
  match v with
  | VStr s => s
  | VInt z => pretty z
  | VBool true => "True"
  | VBool false => "False"
  | VDict _ => "{"
  end.

Definition digit_of (c : ascii) : option Z :=
  let n := Ascii.nat_of_ascii c in
  if ((48 <=? n)%nat && (n <=? 57)%nat)%bool then Some (Z.of_nat (n - 48)) else None.

(** Decimal digits with single underscores between them. *)
Fixpoint digits (acc : Z) (after_digit : bool) (cs : list ascii) : option Z :=
  match cs with
  | [] => if after_digit then Some acc else None
  | c :: rest =>
      match digit_of c with
      | Some d => digits (10 * acc + d) true rest
      | None =>
          if (Ascii.eqb c "_" && after_digit)%bool
          then match rest with [] => None | _ => digits acc false rest end
          else None
      end
  end.

(** [Py_ISSPACE], the white space [int] skips around an ASCII literal:
    tab to carriage return, and the blank; not the separators 28 to 31
    that [strip] takes. *)
Definition is_c_space (c : ascii) : bool :=
  let n := Ascii.nat_of_ascii c in
  (((9 <=? n)%nat && (n <=? 13)%nat) || (n =? 32)%nat)%bool.

Fixpoint skip_spaces (cs : list ascii) : list ascii :=
  match cs with
  | c :: rest => if is_c_space c then skip_spaces rest else cs
  | [] => []
  end.

(** The characters before the first NUL: what the C parser of [int] sees
    of the string. *)
Fixpoint c_string (cs : list ascii) : list ascii :=
  match cs with
  | c :: rest => if (Ascii.nat_of_ascii c =? 0)%nat then [] else c :: c_string rest
  | [] => []
  end.

Definition hex_digit (n : nat) : ascii :=
  nth n (list_ascii_of_string "0123456789abcdef") "0"%char.

Definition double_quote : ascii := Ascii.ascii_of_nat 34.

(** One character of [repr(s)], [quote] being the quote chosen. *)
Definition repr_char (quote c : ascii) : list ascii :=
  let n := Ascii.nat_of_ascii c in
  if (Ascii.eqb c quote || Ascii.eqb c "\")%bool then ["\"%char; c]
  else if (n =? 9)%nat then ["\"%char; "t"%char]
  else if (n =? 10)%nat then ["\"%char; "n"%char]
  else if (n =? 13)%nat then ["\"%char; "r"%char]
  else if ((n <? 32)%nat || (n =? 127)%nat)%bool
  then ["\"%char; "x"%char; hex_digit (n / 16); hex_digit (n mod 16)]
  else [c].

(** [repr(s)] on ASCII text: double quotes when the string holds a single
    quote and no double one, single quotes otherwise. *)
Definition repr (s : string) : list ascii :=
  let cs := list_ascii_of_string s in
  let quote :=
    if (existsb (Ascii.eqb "'") cs && negb (existsb (Ascii.eqb double_quote) cs))%bool
    then double_quote else "'"%char in
  quote :: concat (map (repr_char quote) cs) ++ [quote].

Definition MAX_STR_DIGITS : nat := 4300.

(** The longest run of digits and underscores at the head of [cs], and
    what follows it. *)
Fixpoint literal_run (cs : list ascii) : list ascii * list ascii :=
  match cs with
  | c :: rest =>
      if (bool_decide (is_Some (digit_of c)) || Ascii.eqb c "_")%bool
      then let (run, tail) := literal_run rest in (c :: run, tail)
      else ([], cs)
  | [] => ([], [])
  end.

(** [int(s)] for a string of ASCII text, as CPython 3.11 parses it: white
    space, a sign, digits with single underscores between them, white
    space.  A run of more than 4300 digits is refused before what follows
    it is looked at; the message of an invalid literal holds the first
    200 characters of [repr(s)]. *)
Definition int_of_str (s : string) : Exc Z :=
  let invalid :=
    Exn ("invalid literal for int() with base 10: "
         +:+ string_of_list_ascii (take 200 (repr s))) in
  let all := list_ascii_of_string s in
  let body := c_string all in
  let signed := skip_spaces body in
  let unsigned :=
    match signed with
    | "+"%char :: cs | "-"%char :: cs => cs
    | cs => cs
    end in
  let (run, tail) := literal_run unsigned in
  match digits 0 false run with
  | None => invalid
  | Some z =>
      let n := length (List.filter (fun c => bool_decide (is_Some (digit_of c))) run) in
      if (MAX_STR_DIGITS <? n)%nat
      then Exn ("Exceeds the limit (4300 digits) for integer string conversion: value has "
                +:+ pretty n
                +:+ " digits; use sys.set_int_max_str_digits() to increase the limit")
      else
        match skip_spaces tail with
        | [] =>
            if (length body <? length all)%nat then invalid
            else Val (match signed with "-"%char :: _ => - z | _ => z end)
        | _ => invalid
        end
  end.

(** [int(v)] *)
Definition int (v : value) : Exc Z :=
  match v with
  | VInt z => Val z
  | VBool b => Val (if b then 1 else 0)
  | VStr s => int_of_str s
  | VDict _ =>
      Exn "int() argument must be a string, a bytes-like object or a real number, not 'dict'"
  end.

(** The expression [int(x / 1000 * dim)] shared by every coordinate
    mapper of the repository, for [x] any argument value and [dim] an int
    constant. *)
Definition scale (x : value) (dim : Z) : Exc Z :=
  let on_int (n : Z) :=
    match int_truediv n 1000 with
    | Val q =>
        match float_mul_int q dim with
        | Val p => int_of_float p
        | Exn msg => Exn msg
        end
    | Exn msg => Exn msg
    end in
  match x with
  | VInt n => on_int n
  | VBool b => on_int (if b then 1 else 0)
  | VStr _ | VDict _ =>
      Exn ("unsupported operand type(s) for /: '" +:+ type_name x +:+ "' and 'int'")
  end.

End Py.

(** ** Constants of the three scripts *)

Definition SCREEN_WIDTH : Z := 1440.
Definition SCREEN_HEIGHT : Z := 900.

(** [agent.py], lines 22-27 (and, word for word, [job_form.py], 29-34). *)
Definition denorm_x (x : value) : Exc Z := Py.scale x SCREEN_WIDTH.
Definition denorm_y (y : value) : Exc Z := Py.scale y SCREEN_HEIGHT.

(** [app.py], lines 37-41. *)
Definition denormalize_x (x : value) (screen_width : Z) : Exc Z := Py.scale x screen_width.
Definition denormalize_y (y : value) (screen_height : Z) : Exc Z := Py.scale y screen_height.


(** ** The conversation with the model *)

Record FunctionCall : Type := {
  fc_name : string;
  fc_args : option (gmap string value)   (* [None]: the SDK left [args] unset *)
}.

Record Part : Type := {
  text : option string;
  function_call : option FunctionCall
}.

Record FunctionResponseBlob : Type := {
  mime_type : string;
  data : string
}.

Record FunctionResponse : Type := {
  fr_name : string;
  fr_response : gmap string value;
  fr_parts : list FunctionResponseBlob
}.

Inductive Content : Type :=
| UserGoal (goal : string) (png : string)
| ModelContent (parts : list Part)
| UserResponses (frs : list FunctionResponse).

(** ** Effects: the browser page, the clock, the terminal, the model *)

Inductive Event : Type :=
| GoBack
| GoForward
| Goto (url : value)
| MouseClick (x y : Z)
| MouseMove (x y : Z) (steps : option Z)
| MouseDown
| MouseUp
| MouseWheel (dx dy : Z)
| KeyPress (keys : value)
| KeyType (txt : value)
| Evaluate (js : string)
| WaitForLoadState (state : option string) (timeout : Z)
| Sleep (ms : Z)
| Screenshot
| ReadUrl
| Input (prompt : string)
| GenerateContent (contents : list Content).

Record World : Type := {
  trace : list Event;     (* oldest first *)
  stdin : list string     (* the lines the operator types, without newline *)
}.

Record Env : Type := {
  (** the message of the exception a Playwright call raises, if it does,
      after the history given *)
  page_error : list Event -> Event -> option string;
  page_png : list Event -> string;
  page_url : list Event -> string;
  (** [client.models.generate_content(...).candidates[0].content.parts] *)
  model_reply : list Event -> list Content -> Exc (list Part)
}.

Definition M (A : Type) : Type := World -> Exc A * World.

Definition ret {A} (a : A) : M A := fun w => (Val a, w).

Definition raise {A} (msg : string) : M A := fun w => (Exn msg, w).

Definition bind {A B} (m : M A) (k : A -> M B) : M B :=
  fun w =>
    match m w with
    | (Val a, w') => k a w'
    | (Exn msg, w') => (Exn msg, w')
    end.

(** [try: m   except Exception as e: handler(str(e))] *)
Definition try_except {A} (m : M A) (handler : string -> M A) : M A :=
  fun w =>
    match m w with
    | (Val a, w') => (Val a, w')
    | (Exn msg, w') => handler msg w'
    end.

Definition lift {A} (r : Exc A) : M A := fun w => (r, w).

Declare Scope eff_scope.
Delimit Scope eff_scope with eff.
Notation "x <- m ;; k" := (bind m (fun x => k))
  (at level 100, m at next level, right associativity) : eff_scope.
Notation "m ;; k" := (bind m (fun _ => k))
  (at level 100, right associativity) : eff_scope.
Local Open Scope eff_scope.

Definition log (e : Event) (w : World) : World :=
  {| trace := trace w ++ [e]; stdin := stdin w |}.

(** [time.sleep(ms / 1000)] *)
Definition sleep (ms : Z) : M unit := fun w => (Val tt, log (Sleep ms) w).

(** [d[key]] on an argument bag. *)
Definition getitem (d : gmap string value) (key : string) : M value :=
  match d !! key with
  | Some v => ret v
  | None => raise ("'" +:+ key +:+ "'")
  end.

Section Page.
Variable env : Env.

(** A call of a Playwright method that returns nothing. *)
Definition page (e : Event) : M unit :=
  fun w =>
    match page_error env (trace w) e with
    | None => (Val tt, log e w)
    | Some msg => (Exn msg, log e w)
    end.

(** [page.screenshot(type="png")] *)
Definition screenshot : M string :=
  fun w =>
    match page_error env (trace w) Screenshot with
    | None => (Val (page_png env (trace w)), log Screenshot w)
    | Some msg => (Exn msg, log Screenshot w)
    end.

(** [page.url] *)
Definition url : M string :=
  fun w => (Val (page_url env (trace w)), log ReadUrl w).

(** [client.models.generate_content(model=..., contents=contents,
    config=config)] followed by [.candidates[0].content.parts]. *)
Definition generate_content (contents : list Content) : M (list Part) :=
  fun w => (model_reply env (trace w) contents, log (GenerateContent contents) w).
End Page.

(** [input(prompt)]: the next line of the terminal, [EOFError] at its end. *)
Definition input (prompt : string) : M string :=
  fun w =>
    match stdin w with
    | [] => (Exn "EOF when reading a line", log (Input prompt) w)
    | line :: rest => (Val line, {| trace := trace w ++ [Input prompt]; stdin := rest |})
    end.

(** ** What the three scripts share *)

(** One entry of [results]: [(function_name, result_payload)]. *)
Abbreviation Result := (string * gmap string value)%type.

(** [[p.function_call for p in candidate.content.parts
      if getattr(p, "function_call", None)]] *)
Definition function_calls (parts : list Part) : list FunctionCall :=
  omap function_call parts.

(** [any(getattr(p, "function_call", None) for p in cand.content.parts)] *)
Definition any_function_call (parts : list Part) : bool :=
  existsb (fun p => bool_decide (is_Some (function_call p))) parts.

(** [" ".join([p.text for p in cand.content.parts if getattr(p, "text", None)])] *)
Definition final_text (parts : list Part) : string :=
  String.concat " "
    (omap (fun p => match text p with
                    | Some t => if String.eqb t EmptyString then None else Some t
                    | None => None
                    end) parts).

(** How one round of the [for fc in function_calls] loop ends: it appended
    a result and the loop goes on, or it appended a result and the
    function returned. *)
Inductive Round : Type :=
| Appended (r : Result)
| Returned (r : Result).

(** How the turn loop of [main] ends when no exception escapes it. *)
Inductive Termination : Type :=
| Done (final : string)      (* [break] on a response without function call *)
| StepLimit.                 (* the [else] branch of the [for] *)

(** ** [agent.py] *)

Module Agent.
Section WithEnv.
Variable env : Env.

Definition prompt : string := "Continue? [y/N]: ".

(** The [while True] loop of [ask_confirmation], lines 33-38, along the
    lines still to be read. *)
Fixpoint ask_loop (lines : list string) (tr : list Event) : Exc bool * World :=
  match lines with
  | [] => (Exn "EOF when reading a line", {| trace := tr ++ [Input prompt]; stdin := [] |})
  | line :: rest =>
      let ans := Py.lower (Py.strip line) in
      if bool_decide (ans ∈ ["y"; "yes"])
      then (Val true, {| trace := tr ++ [Input prompt]; stdin := rest |})
      else if bool_decide (ans ∈ [EmptyString; "n"; "no"])
      then (Val false, {| trace := tr ++ [Input prompt]; stdin := rest |})
      else ask_loop rest (tr ++ [Input prompt])
  end.

(** Lines 30-38.  [safety_decision.get] exists on a dict only. *)
Definition ask_confirmation (safety_decision : value) : M bool :=
  match safety_decision with
  | VDict _ => fun w => ask_loop (stdin w) (trace w)
  | v => raise ("'" +:+ Py.type_name v +:+ "' object has no attribute 'get'")
  end.

(** [denorm_x(args[kx]), denorm_y(args[ky])] *)
Definition point (args : gmap string value) (kx ky : string) : M (Z * Z) :=
  x <- getitem args kx ;;
  px <- lift (denorm_x x) ;;
  y <- getitem args ky ;;
  py <- lift (denorm_y y) ;;
  ret (px, py).

(** The [if name == ... elif ... else] chain, lines 65-118.  It returns
    [extra] as the chain leaves it. *)
Definition operate (name : string) (args extra : gmap string value)
  : M (gmap string value) :=
  if String.eqb name "open_web_browser" then
    ret extra
  else if String.eqb name "wait_5_seconds" then
    sleep 5000 ;; ret extra
  else if String.eqb name "go_back" then
    page env GoBack ;; ret extra
  else if String.eqb name "go_forward" then
    page env GoForward ;; ret extra
  else if String.eqb name "search" then
    page env (Goto (VStr "https://www.google.com")) ;; ret extra
  else if String.eqb name "navigate" then
    u <- getitem args "url" ;;
    page env (Goto u) ;; ret extra
  else if String.eqb name "click_at" then
    p <- point args "x" "y" ;;
    page env (MouseClick p.1 p.2) ;; ret extra
  else if String.eqb name "hover_at" then
    p <- point args "x" "y" ;;
    page env (MouseMove p.1 p.2 None) ;; ret extra
  else if String.eqb name "type_text_at" then
    p <- point args "x" "y" ;;
    page env (MouseClick p.1 p.2) ;;
    (if Py.truthy (default (VBool true) (args !! "clear_before_typing"))
     then page env (KeyPress (VStr "Meta+A")) ;; page env (KeyPress (VStr "Backspace"))
     else ret tt) ;;
    t <- getitem args "text" ;;
    page env (KeyType t) ;;
    (if Py.truthy (default (VBool true) (args !! "press_enter"))
     then page env (KeyPress (VStr "Enter"))
     else ret tt) ;;
    ret extra
  else if String.eqb name "key_combination" then
    k <- getitem args "keys" ;;
    page env (KeyPress k) ;; ret extra
  else if String.eqb name "scroll_document" then
    let direction := Py.lower (Py.str (default (VStr "down") (args !! "direction"))) in
    (if String.eqb direction "down" then page env (KeyPress (VStr "PageDown"))
     else if String.eqb direction "up" then page env (KeyPress (VStr "PageUp"))
     else if String.eqb direction "left" then page env (Evaluate "window.scrollBy(-400, 0)")
     else if String.eqb direction "right" then page env (Evaluate "window.scrollBy(400, 0)")
     else ret tt) ;;
    ret extra
  else if String.eqb name "scroll_at" then
    p <- point args "x" "y" ;;
    page env (MouseMove p.1 p.2 None) ;;
    magnitude <- lift (Py.int (default (VInt 800) (args !! "magnitude"))) ;;
    let direction := Py.lower (Py.str (default (VStr "down") (args !! "direction"))) in
    let dy := if String.eqb direction "down" then magnitude else - magnitude in
    page env (MouseWheel 0 dy) ;; ret extra
  else if String.eqb name "drag_and_drop" then
    s <- point args "x" "y" ;;
    d <- point args "destination_x" "destination_y" ;;
    page env (MouseMove s.1 s.2 None) ;;
    page env MouseDown ;;
    page env (MouseMove d.1 d.2 (Some 10)) ;;
    page env MouseUp ;; ret extra
  else
    ret (<["warning" := VStr "unimplemented_action"]> extra).

(** Lines 120-124: the guarded wait and the settling delay. *)
Definition settle : M unit :=
  try_except (page env (WaitForLoadState None 5000)) (fun _ => ret tt) ;;
  sleep 600.

(** Lines 64-129: the outer [try].  [extra] is changed inside the [try]
    by the last branch of the chain only, after which nothing raises, so
    the handler sees the [extra] the [try] started with. *)
Definition attempt (name : string) (args extra : gmap string value) : M Result :=
  try_except
    (extra' <- operate name args extra ;;
     settle ;;
     ret (name, extra'))
    (fun e => ret (name, extra ∪ {["error" := VStr e]})).

(** One round of the loop, lines 51-129. *)
Definition exec_call (fc : FunctionCall) : M Round :=
  let name := fc_name fc in
  let args := default ∅ (fc_args fc) in
  match args !! "safety_decision" with
  | Some safety_decision =>
      allowed <- ask_confirmation safety_decision ;;
      if negb allowed
      then ret (Returned (name, {["error" := VStr "user_denied"]}))
      else r <- attempt name args {["safety_acknowledgement" := VBool true]} ;;
           ret (Appended r)
  | None =>
      r <- attempt name args ∅ ;;
      ret (Appended r)
  end.

Fixpoint exec_loop (fcs : list FunctionCall) (results : list Result) : M (list Result) :=
  match fcs with
  | [] => ret results
  | fc :: rest =>
      round <- exec_call fc ;;
      match round with
      | Appended r => exec_loop rest (results ++ [r])
      | Returned r => ret (results ++ [r])
      end
  end.

(** Lines 41-131; [candidate] is [candidate.content.parts]. *)
Definition exec_calls (candidate : list Part) : M (list Result) :=
  exec_loop (function_calls candidate) [].

(** Lines 134-153. *)
Definition build_function_responses (results : list Result) : M (list FunctionResponse) :=
  shot <- screenshot env ;;
  u <- url env ;;
  ret (map (fun r : Result =>
              {| fr_name := r.1;
                 fr_response := r.2 ∪ {["url" := VStr u]};
                 fr_parts := [ {| mime_type := "image/png"; data := shot |} ] |})
           results).

(** The [for turn in range(...)] loop with its [else], lines 211-236. *)
Fixpoint agent_loop (turns : nat) (contents : list Content) : M Termination :=
  match turns with
  | O => ret StepLimit
  | S turns' =>
      cand <- generate_content env contents ;;
      let contents := contents ++ [ModelContent cand] in
      if negb (any_function_call cand)
      then ret (Done (final_text cand))
      else
        results <- exec_calls cand ;;
        frs <- build_function_responses results ;;
        agent_loop turns' (contents ++ [UserResponses frs])
  end.

(** The body of the [try] of [main], lines 183-236: the start page, the
    first screenshot and the turn loop.  Argument parsing, the launch of
    the browser and the [finally] clean-up lie around it. *)
Definition main (goal : string) : M Termination :=
  page env (Goto (VStr "https://www.google.com")) ;;
  initial_png <- screenshot env ;;
  agent_loop 10 [UserGoal goal initial_png].

End WithEnv.
End Agent.

(** ** [job_form.py] *)

Module JobForm.
Section WithEnv.
Variable env : Env.

Definition TURN_LIMIT : nat := 10.

(** Lines 37-41. *)
Definition ask_confirmation (safety_decision : value) : M bool :=
  match safety_decision with
  | VDict _ =>
      ans <- input "Proceed? [y/N]: " ;;
      ret (Py.startswith (Py.lower (Py.strip ans)) "y")
  | v => raise ("'" +:+ Py.type_name v +:+ "' object has no attribute 'get'")
  end.

(** The chain of lines 60-85. *)
Definition operate (name : string) (args meta : gmap string value)
  : M (gmap string value) :=
  if String.eqb name "open_web_browser" then
    ret meta
  else if String.eqb name "navigate" then
    u <- getitem args "url" ;;
    page env (Goto u) ;; ret meta
  else if String.eqb name "click_at" then
    x <- getitem args "x" ;;
    px <- lift (denorm_x x) ;;
    y <- getitem args "y" ;;
    py <- lift (denorm_y y) ;;
    page env (MouseClick px py) ;; ret meta
  else if String.eqb name "type_text_at" then
    x <- getitem args "x" ;;
    px <- lift (denorm_x x) ;;
    y <- getitem args "y" ;;
    py <- lift (denorm_y y) ;;
    page env (MouseClick px py) ;;
    (if Py.truthy (default (VBool true) (args !! "clear_before_typing"))
     then page env (KeyPress (VStr "Meta+A")) ;; page env (KeyPress (VStr "Backspace"))
     else ret tt) ;;
    t <- getitem args "text" ;;
    page env (KeyType t) ;;
    (if Py.truthy (default (VBool false) (args !! "press_enter"))
     then page env (KeyPress (VStr "Enter"))
     else ret tt) ;;
    ret meta
  else if String.eqb name "scroll_document" then
    direction <-
      match default (VStr "down") (args !! "direction") with
      | VStr s => ret (Py.lower s)
      | v => raise ("'" +:+ Py.type_name v +:+ "' object has no attribute 'lower'")
      end ;;
    (if String.eqb direction "down" then page env (KeyPress (VStr "PageDown"))
     else if String.eqb direction "up" then page env (KeyPress (VStr "PageUp"))
     else ret tt) ;;
    ret meta
  else if String.eqb name "key_combination" then
    k <- getitem args "keys" ;;
    page env (KeyPress k) ;; ret meta
  else
    ret (<["warning" := VStr "unimplemented"]> meta).

(** Lines 87-91. *)
Definition settle : M unit :=
  try_except (page env (WaitForLoadState None 4000)) (fun _ => ret tt) ;;
  sleep 500.

(** Lines 59-95; as in [agent.py], the handler sees the [meta] the [try]
    started with. *)
Definition attempt (name : string) (args meta : gmap string value) : M Result :=
  try_except
    (meta' <- operate name args meta ;;
     settle ;;
     ret (name, meta'))
    (fun e => ret (name, meta ∪ {["error" := VStr e]})).

(** One round of the loop, lines 48-95. *)
Definition exec_call (fc : FunctionCall) : M Round :=
  let name := fc_name fc in
  let args := default ∅ (fc_args fc) in
  match args !! "safety_decision" with
  | Some safety_decision =>
      allowed <- ask_confirmation safety_decision ;;
      if negb allowed
      then ret (Returned (name, {["error" := VStr "user_denied"]}))
      else r <- attempt name args {["safety_acknowledgement" := VBool true]} ;;
           ret (Appended r)
  | None =>
      r <- attempt name args ∅ ;;
      ret (Appended r)
  end.

Fixpoint exec_loop (fcs : list FunctionCall) (results : list Result) : M (list Result) :=
  match fcs with
  | [] => ret results
  | fc :: rest =>
      round <- exec_call fc ;;
      match round with
      | Appended r => exec_loop rest (results ++ [r])
      | Returned r => ret (results ++ [r])
      end
  end.

(** Lines 44-96. *)
Definition exec_calls (candidate : list Part) : M (list Result) :=
  exec_loop (function_calls candidate) [].

(** Lines 99-115. *)
Definition build_function_responses (results : list Result) : M (list FunctionResponse) :=
  shot <- screenshot env ;;
  u <- url env ;;
  ret (map (fun r : Result =>
              {| fr_name := r.1;
                 fr_response := r.2 ∪ {["url" := VStr u]};
                 fr_parts := [ {| mime_type := "image/png"; data := shot |} ] |})
           results).

(** The [for turn in range(TURN_LIMIT)] loop with its [else], lines
    173-191. *)
Fixpoint turn_loop (turns : nat) (contents : list Content) : M Termination :=
  match turns with
  | O => ret StepLimit
  | S turns' =>
      cand <- generate_content env contents ;;
      let contents := contents ++ [ModelContent cand] in
      if negb (any_function_call cand)
      then ret (Done (final_text cand))
      else
        results <- exec_calls cand ;;
        frs <- build_function_responses results ;;
        turn_loop turns' (contents ++ [UserResponses frs])
  end.

(** The body of the [try] of [main], lines 154-191; [file_url] is the
    address of the local form. *)
Definition main (goal file_url : string) : M Termination :=
  page env (Goto (VStr file_url)) ;;
  initial <- screenshot env ;;
  turn_loop TURN_LIMIT [UserGoal goal initial].

End WithEnv.
End JobForm.

(** ** [app.py] *)

Module App.
Section WithEnv.
Variable env : Env.

(** Lines 43-49.  [safety_decision["explanation"]] is a subscription. *)
Definition get_safety_confirmation (safety_decision : value) : M string :=
  match safety_decision with
  | VDict d =>
      match d !! "explanation" with
      | Some _ =>
          decision <- input "Proceed with this action? [Y/N]: " ;;
          if Py.startswith (Py.lower (Py.strip decision)) "y"
          then ret "CONTINUE"
          else ret "TERMINATE"
      | None => raise "'explanation'"
      end
  | VStr _ => raise "string indices must be integers, not 'str'"
  | v => raise ("'" +:+ Py.type_name v +:+ "' object is not subscriptable")
  end.

(** The chain of lines 71-91. *)
Definition operate (fname : string) (args : gmap string value)
    (screen_width screen_height : Z) : M unit :=
  if String.eqb fname "open_web_browser" then
    ret tt
  else if String.eqb fname "click_at" then
    x <- getitem args "x" ;;
    px <- lift (denormalize_x x screen_width) ;;
    y <- getitem args "y" ;;
    py <- lift (denormalize_y y screen_height) ;;
    page env (MouseClick px py)
  else if String.eqb fname "type_text_at" then
    x <- getitem args "x" ;;
    px <- lift (denormalize_x x screen_width) ;;
    y <- getitem args "y" ;;
    py <- lift (denormalize_y y screen_height) ;;
    page env (MouseClick px py) ;;
    page env (KeyPress (VStr "Meta+A")) ;;
    page env (KeyPress (VStr "Backspace")) ;;
    t <- getitem args "text" ;;
    page env (KeyType t) ;;
    (if Py.truthy (default (VBool true) (args !! "press_enter"))
     then page env (KeyPress (VStr "Enter"))
     else ret tt)
  else if String.eqb fname "scroll_document" then
    let direction := default (VStr "down") (args !! "direction") in
    let amount := if bool_decide (direction = VStr "down") then 1000 else -1000 in
    page env (MouseWheel 0 amount)
  else if String.eqb fname "key_combination" then
    k <- getitem args "keys" ;;
    page env (KeyPress k)
  else
    ret tt.

(** How one round of [for part in candidate.content.parts] ends. *)
Inductive Pass : Type :=
| Skip                (* [continue]: the part holds no function call *)
| Break               (* [break]: the operator answered no *)
| Add (r : Result).   (* [results.append((fname, extra_fields))] *)

(** Lines 70-98, from the [try] to the [append]. *)
Definition perform (fname : string) (args extra_fields : gmap string value)
    (screen_width screen_height : Z) : M Result :=
  extra_fields <-
    try_except
      (operate fname args screen_width screen_height ;; ret extra_fields)
      (fun e => ret (<["error" := VStr e]> extra_fields)) ;;
  page env (WaitForLoadState (Some "load") 8000) ;;
  sleep 1000 ;;
  ret (fname, extra_fields).

(** One round, lines 54-98. *)
Definition exec_part (part : Part) (screen_width screen_height : Z) : M Pass :=
  match function_call part with
  | None => ret Skip
  | Some fc =>
      let fname := fc_name fc in
      match fc_args fc with
      | None => raise "argument of type 'NoneType' is not iterable"
      | Some args =>
          match args !! "safety_decision" with
          | Some safety_decision =>
              decision <- get_safety_confirmation safety_decision ;;
              if String.eqb decision "TERMINATE"
              then ret Break
              else r <- perform fname args {["safety_acknowledgement" := VBool true]}
                          screen_width screen_height ;;
                   ret (Add r)
          | None =>
              r <- perform fname args ∅ screen_width screen_height ;;
              ret (Add r)
          end
      end
  end.

Fixpoint exec_loop (parts : list Part) (screen_width screen_height : Z)
    (results : list Result) : M (list Result) :=
  match parts with
  | [] => ret results
  | part :: rest =>
      pass <- exec_part part screen_width screen_height ;;
      match pass with
      | Skip => exec_loop rest screen_width screen_height results
      | Break => ret results
      | Add r => exec_loop rest screen_width screen_height (results ++ [r])
      end
  end.

(** Lines 51-99. *)
Definition execute_function_calls (candidate : list Part)
    (screen_width screen_height : Z) : M (list Result) :=
  exec_loop candidate screen_width screen_height [].

(** Lines 101-118. *)
Definition get_function_responses (results : list Result) : M (list FunctionResponse) :=
  screenshot <- screenshot env ;;
  url <- url env ;;
  ret (map (fun r : Result =>
              {| fr_name := r.1;
                 fr_response := r.2 ∪ {["url" := VStr url]};
                 fr_parts := [ {| mime_type := "image/png"; data := screenshot |} ] |})
           results).

End WithEnv.
End App.

(** * Vocabulary of the properties *)

(** Exhaustive checking of a decidable property on [0 .. k]. *)
Definition check_upto (P : Z -> bool) (k : nat) : bool :=
  forallb P (map Z.of_nat (seq 0 (S k))).

(** The normalized abscissas at which binary64 rounding leaves the product
    just below the integer that the exact fraction reaches. *)
Definition short_by_one (n : Z) : bool := bool_decide (n ∈ [175; 350; 575; 700]).

(** The pixel the mapper of the 1440 x 900 viewport returns. *)
Definition pixel_x (n : Z) : Z :=
  n * SCREEN_WIDTH / 1000 - (if short_by_one n then 1 else 0).

Definition pixel_y (n : Z) : Z := n * SCREEN_HEIGHT / 1000.

(** The computation [m] only adds events satisfying [P] to the trace,
    whatever its result. *)
Definition emits {A} (P : Event -> Prop) (m : M A) : Prop :=
  forall w, exists evs, trace (m w).2 = trace w ++ evs /\ Forall P evs.

(** The events of the executor: everything but the screenshot, the reading
    of the URL and the call of the model. *)
Definition action_event (e : Event) : Prop :=
  match e with
  | Screenshot | ReadUrl | GenerateContent _ => False
  | _ => True
  end.

(** The keys a result payload may hold. *)
Definition payload_keys (r : Result) : Prop :=
  forall k, is_Some (r.2 !! k) ->
            k = "error" \/ k = "warning" \/ k = "safety_acknowledgement".

(** Every value the computation [m] returns satisfies [S]. *)
Definition returns_in {A} (S : A -> Prop) (m : M A) : Prop :=
  forall w a w', m w = (Val a, w') -> S a.

(** The payload of a denied action. *)
Definition user_denied : gmap string value := {["error" := VStr "user_denied"]}.

(** The request carries a safety decision. *)
Definition gated (fc : FunctionCall) : Prop :=
  is_Some (default ∅ (fc_args fc) !! "safety_decision").

(** The outcome list [new] of a turn answers the requests [fcs] one for
    one and in order, or stops with the denial of a gated request. *)
Definition answers (fcs : list FunctionCall) (new : list Result) : Prop :=
  new.*1 = fc_name <$> fcs
  \/ exists k fc, fcs !! k = Some fc /\ gated fc
                  /\ new.*1 = fc_name <$> take (S k) fcs
                  /\ last new = Some (fc_name fc, user_denied).

(** ** Concrete browsers, operators and requests *)

(** A browser in which nothing fails and a model that has nothing to ask. *)
Definition calm : Env := {|
  page_error := fun _ _ => None;
  page_png := fun _ => "PNG";
  page_url := fun _ => "https://www.google.com/";
  model_reply := fun _ _ => Val []
|}.

(** A page whose load event never fires: every wait for the load state
    runs into its timeout. *)
Definition stalled : Env := {|
  page_error := fun _ e =>
    match e with
    | WaitForLoadState _ timeout => Some ("Timeout " +:+ pretty timeout +:+ "ms exceeded.")
    | _ => None
    end;
  page_png := fun _ => "PNG";
  page_url := fun _ => "https://www.google.com/";
  model_reply := fun _ _ => Val []
|}.

(** A page that has gone away: the mouse fails and the load state is never
    reached. *)
Definition closed : Env := {|
  page_error := fun _ e =>
    match e with
    | MouseClick _ _ => Some "Target page, context or browser has been closed"
    | WaitForLoadState _ timeout => Some ("Timeout " +:+ pretty timeout +:+ "ms exceeded.")
    | _ => None
    end;
  page_png := fun _ => "PNG";
  page_url := fun _ => "https://www.google.com/";
  model_reply := fun _ _ => Val []
|}.

(** A browser without network: every navigation fails. *)
Definition offline : Env := {|
  page_error := fun _ e =>
    match e with
    | Goto _ => Some "net::ERR_INTERNET_DISCONNECTED"
    | _ => None
    end;
  page_png := fun _ => "PNG";
  page_url := fun _ => "about:blank";
  model_reply := fun _ _ => Val []
|}.

Definition fresh (lines : list string) : World := {| trace := []; stdin := lines |}.

Definition request (name : string) (args : gmap string value) : Part :=
  {| text := None;
     function_call := Some {| fc_name := name; fc_args := Some args |} |}.

Definition centre : gmap string value := {[ "x" := VInt 500; "y" := VInt 500 ]}.

Definition risky (args : gmap string value) : gmap string value :=
  <[ "safety_decision" := VDict {[ "explanation" := "This submits the form." ]} ]> args.

(** The Playwright calls [ops] made one after the other, up to the first
    that raises. *)
Fixpoint play (env : Env) (ops : list Event) : M unit :=
  match ops with
  | [] => ret tt
  | op :: rest => page env op ;; play env rest
  end.

(** The pixel that the arguments [x] and [y] of a request map to, when
    both are there and both map. *)
Definition pixel (args : gmap string value) : option (Z * Z) :=
  match args !! "x", args !! "y" with
  | Some x, Some y =>
      match denorm_x x, denorm_y y with
      | Val px, Val py => Some (px, py)
      | _, _ => None
      end
  | _, _ => None
  end.

Definition enter : Event := KeyPress (VStr "Enter").

Definition select_all : Event := KeyPress (VStr "Meta+A").

Definition backspace : Event := KeyPress (VStr "Backspace").

(** The operations of a complete [type_text_at] that clears the field and
    presses Enter. *)
Definition typing_script (x y : Z) (t : value) : list Event :=
  [ MouseClick x y; select_all; backspace; KeyType t; enter ].

(** The run of a [type_text_at] from [w] that clears the field.  When a
    coordinate is missing or does not map, nothing is asked of the browser
    and the run raises.  Otherwise the click at the mapped pixel, the
    select-all and the delete are played, in this order and up to the
    first that raises; then [args["text"]] is looked up and typed, and
    Enter is pressed if [press_enter], [enter_default] when it is not
    given, is true; a run that gets through returns [extra]. *)
Definition clears_then_types (env : Env) (enter_default : bool)
    (args extra : gmap string value) (w : World)
    (run : Exc (gmap string value) * World) : Prop :=
  match pixel args with
  | Some (px, py) =>
      run = (play env [MouseClick px py; select_all; backspace] ;;
             t <- getitem args "text" ;;
             play env (KeyType t ::
                       if Py.truthy (default (VBool enter_default) (args !! "press_enter"))
                       then [enter] else []) ;;
             ret extra) w
  | None => exists msg, run = (Exn msg, w)
  end.

Definition hello : gmap string value :=
  {[ "x" := VInt 500; "y" := VInt 500; "text" := VStr "hello" ]}.

(** What [extra] holds once the operator has allowed the action. *)
Definition acknowledged : gmap string value :=
  {["safety_acknowledgement" := VBool true]}.

Definition risky_click : FunctionCall :=
  {| fc_name := "click_at"; fc_args := Some (risky centre) |}.

(** The responses [frs] pair every outcome of [rs], in order, with the one
    screenshot [png] and the one address [url]. *)
Definition observes (png url : string) (rs : list Result)
    (frs : list FunctionResponse) : Prop :=
  length frs = length rs
  /\ forall i r, rs !! i = Some r ->
       exists fr, frs !! i = Some fr
                  /\ fr_name fr = r.1
                  /\ fr_parts fr = [ {| mime_type := "image/png"; data := png |} ]
                  /\ fr_response fr !! "url" = Some (VStr url)
                  /\ forall k, k <> "url" -> fr_response fr !! k = r.2 !! k.

(** What the observation builder [build] does after the actions of a turn
    left the results [rs] and the world [w1].  When the screenshot can be
    taken, the builder returns: it has taken this one screenshot, then
    read the address once, and every response holds the two.  When the
    screenshot raises, the builder raises with it, and the attempt is all
    it has done. *)
Definition one_observation (env : Env)
    (build : list Result -> M (list FunctionResponse))
    (rs : list Result) (w1 : World) : Prop :=
  match page_error env (trace w1) Screenshot with
  | None =>
      exists frs,
        build rs w1
        = (Val frs, {| trace := trace w1 ++ [Screenshot; ReadUrl]; stdin := stdin w1 |})
        /\ observes (page_png env (trace w1))
                    (page_url env (trace w1 ++ [Screenshot])) rs frs
  | Some msg => build rs w1 = (Exn msg, log Screenshot w1)
  end.

(** ** The turn loop as a state machine *)

(** [played env tr n tr']: from the trace [tr], [n] full turns lead to the
    trace [tr'].  A full turn is a call of the model whose reply holds a
    function call, the events of the executor, and one observation. *)
Inductive played (env : Env) : list Event -> nat -> list Event -> Prop :=
| played_none tr : played env tr 0 tr
| played_turn tr contents parts evs n tr' :
    model_reply env tr contents = Val parts ->
    any_function_call parts = true ->
    Forall action_event evs ->
    played env (tr ++ GenerateContent contents :: evs ++ [Screenshot; ReadUrl]) n tr' ->
    played env tr (S n) tr'.

(** The two ways in which the turn loop ends when no exception escapes it,
    for a budget of [budget] turns. *)
Definition classified (env : Env) (budget : nat) (w : World)
    (run : Exc Termination * World) : Prop :=
  match run with
  | (Val (Done final), w') =>
      exists k tr contents parts,
        (k < budget)%nat
        /\ played env (trace w) k tr
        /\ trace w' = tr ++ [GenerateContent contents]
        /\ model_reply env tr contents = Val parts
        /\ any_function_call parts = false
        /\ final = final_text parts
  | (Val StepLimit, w') => played env (trace w) budget (trace w')
  | (Exn _, _) => True
  end.

Definition is_model_call (e : Event) : bool :=
  match e with GenerateContent _ => true | _ => false end.

(** Number of calls of the model in a trace. *)
Definition model_calls (tr : list Event) : nat :=
  length (List.filter is_model_call tr).

(** The history sent to the model reports a denial. *)
Definition reports_denial (c : Content) : bool :=
  match c with
  | UserResponses frs =>
      existsb (fun fr => bool_decide (fr_response fr !! "error" = Some (VStr "user_denied")))
              frs
  | _ => false
  end.

(** The model has been called with a history that reports a denial. *)
Definition asked_after_denial (tr : list Event) : bool :=
  existsb (fun e => match e with
                    | GenerateContent contents => existsb reports_denial contents
                    | _ => false
                    end) tr.

(** A model that wants the same risky click in every turn. *)
Definition insistent : Env := {|
  page_error := fun _ _ => None;
  page_png := fun _ => "PNG";
  page_url := fun _ => "https://www.google.com/";
  model_reply := fun _ _ => Val [request "click_at" (risky centre)]
|}.

(** A model that answers with text at once. *)
Definition satisfied : Env := {|
  page_error := fun _ _ => None;
  page_png := fun _ => "PNG";
  page_url := fun _ => "https://www.google.com/";
  model_reply := fun _ _ =>
    Val [ {| text := Some "All"; function_call := None |};
          {| text := None; function_call := None |};
          {| text := Some "done."; function_call := None |} ]
|}.

Definition goal_and_shot : list Content := [UserGoal "Submit the form." "PNG"].

(** The action names [agent.py] recognizes. *)
Definition vocabulary : list string :=
  [ "open_web_browser"; "wait_5_seconds"; "go_back"; "go_forward"; "search";
    "navigate"; "click_at"; "hover_at"; "type_text_at"; "key_combination";
    "scroll_document"; "scroll_at"; "drag_and_drop" ].


(** * The rest of the scripts *)

(** ** Reading the API key *)

(** The key file next to the script: [None] when it does not exist, else
    its text. *)
Abbreviation KeyFile := (option string).

Module AgentStartup.

(** [agent.py], lines 156-163. *)
Definition load_api_key (key_file : KeyFile) : Exc string :=
  match key_file with
  | None =>
      Exn "Missing API key file. Create 'gemini_api_key' next to agent.py with your key."
  | Some content =>
      let key := Py.strip content in
      if String.eqb key EmptyString
      then Exn "'gemini_api_key' is empty. Put your API key on the first line."
      else Val key
  end.

End AgentStartup.

Module JobFormStartup.

(** [job_form.py], lines 19-26. *)
Definition load_api_key (key_file : KeyFile) : Exc string :=
  match key_file with
  | None => Exn "Missing API key file 'gemini_api_key'."
  | Some content =>
      let key := Py.strip content in
      if String.eqb key EmptyString
      then Exn "API key file is empty."
      else Val key
  end.

End JobFormStartup.

Module AppStartup.

(** [app.py], lines 12-22: one message for the missing and for the blank
    file. *)
Definition load_api_key (key_file : KeyFile) : Exc string :=
  let missing :=
    Exn "Missing API key file. Create a 'gemini_api_key' file next to app.py with your key." in
  match key_file with
  | Some content =>
      let content := Py.strip content in
      if negb (String.eqb content EmptyString) then Val content else missing
  | None => missing
  end.

End AppStartup.

(** ** The turn loop of [app.py] *)

Module AppSession.
Section WithEnv.
Variable env : Env.

(** [" ".join(items)] on a list whose items are strings or [None]; [i] is
    the position of the first item. *)
Fixpoint join_items (i : nat) (items : list (option string)) : Exc (list string) :=
  match items with
  | [] => Val []
  | Some s :: rest =>
      match join_items (S i) rest with
      | Val strs => Val (s :: strs)
      | Exn msg => Exn msg
      end
  | None :: _ =>
      Exn ("sequence item " +:+ pretty i +:+ ": expected str instance, NoneType found")
  end.

(** Line 158: [" ".join([p.text for p in candidate.content.parts if
    hasattr(p, "text")])].  [text] is a field of every part, so the filter
    keeps them all, those whose text is [None] included. *)
Definition text_output (parts : list Part) : Exc string :=
  match join_items 0 (map text parts) with
  | Val strs => Val (String.concat " " strs)
  | Exn msg => Exn msg
  end.

(** The [for turn in range(10)] loop, lines 146-164.  It has no [else]:
    when the turns run out the script goes on to the clean-up without a
    word, which [StepLimit] stands for here. *)
Fixpoint turn_loop (turns : nat) (contents : list Content) : M Termination :=
  match turns with
  | O => ret StepLimit
  | S turns' =>
      candidate <- generate_content env contents ;;
      let contents := contents ++ [ModelContent candidate] in
      if negb (any_function_call candidate)
      then
        text_output <- lift (text_output candidate) ;;
        ret (Done text_output)
      else
        results <- App.execute_function_calls env candidate SCREEN_WIDTH SCREEN_HEIGHT ;;
        function_responses <- App.get_function_responses env results ;;
        turn_loop turns' (contents ++ [UserResponses function_responses])
  end.

End WithEnv.
End AppSession.

(** * Vocabulary of the further properties *)

Definition exc_map {A B} (f : A -> B) (r : Exc A) : Exc B :=
  match r with
  | Val a => Val (f a)
  | Exn msg => Exn msg
  end.

(** What the operator's line amounts to once stripped and lowered. *)
Definition answer (line : string) : string := Py.lower (Py.strip line).

Definition says_yes (line : string) : bool := bool_decide (answer line ∈ ["y"; "yes"]).

Definition says_no (line : string) : bool :=
  bool_decide (answer line ∈ [EmptyString; "n"; "no"]).

(** Text of ASCII characters only, on which the white space and the case
    of [Py] are those of Python. *)
Definition ascii_text (s : string) : bool :=
  forallb (fun c => (Ascii.nat_of_ascii c <? 128)%nat) (list_ascii_of_string s).

(** A line of ASCII text that [agent.py] takes for neither answer and asks
    again after. *)
Definition unclear (line : string) : Prop :=
  ascii_text line = true /\ says_yes line = false /\ says_no line = false.

(** A key file that is missing or holds ASCII text. *)
Definition plain (key_file : KeyFile) : Prop :=
  match key_file with
  | Some content => ascii_text content = true
  | None => True
  end.

(** The events of the page, the mouse, the keyboard and the clock: no
    prompt, no screenshot, no call of the model. *)
Definition browser_event (e : Event) : Prop :=
  match e with
  | Input _ | Screenshot | ReadUrl | GenerateContent _ => False
  | _ => True
  end.

(** The computation [m] leaves the terminal alone. *)
Definition keeps_stdin {A} (m : M A) : Prop :=
  forall w, stdin (m w).2 = stdin w.

(** The shape of a payload: an error and a warning exclude each other, the
    acknowledgement is [True] when present, the error is a string, and the
    warning is one of the two markers. *)
Definition payload_shape (r : Result) : Prop :=
  (r.2 !! "error" = None \/ r.2 !! "warning" = None)
  /\ (forall v, r.2 !! "safety_acknowledgement" = Some v -> v = VBool true)
  /\ (forall v, r.2 !! "error" = Some v -> exists msg, v = VStr msg)
  /\ (forall v, r.2 !! "warning" = Some v ->
        v = VStr "unimplemented_action" \/ v = VStr "unimplemented").

(** What [app.py] writes into a payload: the acknowledgement and the
    error, never a warning. *)
Definition app_shape (r : Result) : Prop :=
  payload_shape r /\ r.2 !! "warning" = None.

(** The run of a click from [w]: either nothing was asked of the browser
    and an exception was raised, or both coordinates were present and
    mapped and the one thing asked is the click at the mapped point. *)
Definition clicked {A} (map_x map_y : value -> Exc Z) (args : gmap string value)
    (w : World) (run : Exc A * World) : Prop :=
  (trace run.2 = trace w /\ exists msg, run.1 = Exn msg)
  \/ exists x y px py,
       args !! "x" = Some x /\ args !! "y" = Some y
       /\ map_x x = Val px /\ map_y y = Val py
       /\ trace run.2 = trace w ++ [MouseClick px py].

(** The histories the model is called with along the trace [tr] only grow:
    each one extends the one before, the first one extends [contents]. *)
Fixpoint grows (contents : list Content) (tr : list Event) : Prop :=
  match tr with
  | [] => True
  | GenerateContent contents' :: tr' =>
      contents `prefix_of` contents' /\ grows contents' tr'
  | _ :: tr' => grows contents tr'
  end.

(** An event that is no call of the model. *)
Definition quiet_event (e : Event) : Prop := is_model_call e = false.

(** What a run from [w] with the history [contents] and a budget of
    [budget] turns adds to the trace, however it ends: at most [budget]
    calls of the model, with histories that only grow. *)
Definition bounded_history (budget : nat) (contents : list Content) (w : World)
    {A} (run : Exc A * World) : Prop :=
  exists evs, trace run.2 = trace w ++ evs
              /\ (model_calls evs <= budget)%nat
              /\ grows contents evs.

(** The run from [w] added to the trace a list of events that satisfies
    [Q]. *)
Definition adds {A} (Q : list Event -> Prop) (w : World) (run : Exc A * World) : Prop :=
  exists evs, trace run.2 = trace w ++ evs /\ Q evs.

(** The first thing the run from [w] did was to prompt the operator with
    [prompt]. *)
Definition prompts_first {A} (prompt : string) (w : World) (run : Exc A * World) : Prop :=
  exists evs, trace run.2 = trace w ++ Input prompt :: evs.

(** The operations of a complete [drag_and_drop] from [(sx, sy)] to
    [(dx, dy)]. *)
Definition drag_script (sx sy dx dy : Z) : list Event :=
  [ MouseMove sx sy None; MouseDown; MouseMove dx dy (Some 10); MouseUp ].

(** The action names [job_form.py] recognizes, and those of [app.py]. *)
Definition job_form_vocabulary : list string :=
  [ "open_web_browser"; "navigate"; "click_at"; "type_text_at"; "scroll_document";
    "key_combination" ].

Definition app_vocabulary : list string :=
  [ "open_web_browser"; "click_at"; "type_text_at"; "scroll_document";
    "key_combination" ].

(** A browser in which no wait for the load state ever fails. *)
Definition loads (env : Env) : Prop :=
  forall tr state timeout, page_error env tr (WaitForLoadState state timeout) = None.

(** The request comes with an argument bag. *)
Definition has_args (fc : FunctionCall) : Prop := is_Some (fc_args fc).

(** * Properties *)

(** ** The coordinate mapper *)

Section CoordinateMapper.

Lemma check_upto_sound (P : Z -> bool) (k : nat) :
  check_upto P k = true ->
  forall n, 0 <= n <= Z.of_nat k -> P n = true.
Proof.
  unfold check_upto. rewrite forallb_forall. intros Hall n Hn.
  apply Hall. apply in_map_iff. exists (Z.to_nat n). split; [lia|].
  apply in_seq. lia.
Qed.

Lemma denorm_x_value (n : Z) :
  0 <= n <= 1000 -> denorm_x (VInt n) = Val (pixel_x n).
Proof.
  intros Hn.
  pose (P := fun n => bool_decide (denorm_x (VInt n) = Val (pixel_x n))).
  assert (Hc : check_upto P 1000 = true) by (vm_compute; reflexivity).
  pose proof (check_upto_sound P 1000 Hc n Hn) as Hp.
  unfold P in Hp. apply bool_decide_eq_true in Hp. exact Hp.
Qed.

Lemma denorm_y_value (n : Z) :
  0 <= n <= 1000 -> denorm_y (VInt n) = Val (pixel_y n).
Proof.
  intros Hn.
  pose (P := fun n => bool_decide (denorm_y (VInt n) = Val (pixel_y n))).
  assert (Hc : check_upto P 1000 = true) by (vm_compute; reflexivity).
  pose proof (check_upto_sound P 1000 Hc n Hn) as Hp.
  unfold P in Hp. apply bool_decide_eq_true in Hp. exact Hp.
Qed.

Lemma pixel_x_mono (n m : Z) : 0 <= n <= m -> pixel_x n <= pixel_x m.
Proof.
  intros Hnm. unfold pixel_x, SCREEN_WIDTH.
  destruct (Z.eq_dec n m) as [->|Hne]; [lia|].
  assert (n * 1440 / 1000 + 1 <= m * 1440 / 1000).
  { replace (n * 1440 / 1000 + 1) with ((n * 1440 + 1 * 1000) / 1000)
      by (rewrite Z.div_add by lia; reflexivity).
    apply Z.div_le_mono; lia. }
  destruct (short_by_one n), (short_by_one m); lia.
Qed.

Lemma pixel_y_mono (n m : Z) : 0 <= n <= m -> pixel_y n <= pixel_y m.
Proof.
  intros Hnm. unfold pixel_y, SCREEN_HEIGHT. apply Z.div_le_mono; lia.
Qed.

(** C6, as the spec words it, fails at 175 for the width 1440: the exact
    fraction is 252, the mapper answers 251. *)
Lemma denorm_x_is_not_the_exact_floor :
  ~ (forall n, 0 <= n <= 1000 -> denorm_x (VInt n) = Val (n * SCREEN_WIDTH / 1000)).
Proof.
  intros H. specialize (H 175 ltac:(lia)). vm_compute in H. discriminate H.
Qed.

(** C6 (amended): on the 1440 x 900 viewport and for every normalized
    coordinate [n] of [0, 1000], the mapper returns the integer part of
    the binary64 product, which is the exact [floor (n * dimension /
    1000)] except for the abscissas 175, 350, 575 and 700, where it is
    one pixel less; [app.py]'s mapper agrees; 0 maps to 0, 1000 to the
    dimension, 500 to (720, 450), and both mappings are monotonic. *)
Theorem coordinate_mapper (n : Z) :
  0 <= n <= 1000 ->
  denorm_x (VInt n)
  = Val (n * SCREEN_WIDTH / 1000 - (if short_by_one n then 1 else 0))
  /\ denorm_y (VInt n) = Val (n * SCREEN_HEIGHT / 1000)
  /\ denormalize_x (VInt n) SCREEN_WIDTH = denorm_x (VInt n)
  /\ denormalize_y (VInt n) SCREEN_HEIGHT = denorm_y (VInt n)
  /\ (denorm_x (VInt 0) = Val 0 /\ denorm_y (VInt 0) = Val 0)
  /\ (denorm_x (VInt 1000) = Val SCREEN_WIDTH
      /\ denorm_y (VInt 1000) = Val SCREEN_HEIGHT)
  /\ (denorm_x (VInt 500) = Val 720 /\ denorm_y (VInt 500) = Val 450)
  /\ (forall m, n <= m <= 1000 ->
        exists px py qx qy,
          denorm_x (VInt n) = Val px /\ denorm_x (VInt m) = Val qx /\ px <= qx
          /\ denorm_y (VInt n) = Val py /\ denorm_y (VInt m) = Val qy /\ py <= qy).
Proof.
  intros Hn.
  split; [exact (denorm_x_value n Hn)|].
  split; [exact (denorm_y_value n Hn)|].
  split; [reflexivity|].
  split; [reflexivity|].
  split; [split; vm_compute; reflexivity|].
  split; [split; vm_compute; reflexivity|].
  split; [split; vm_compute; reflexivity|].
  intros m Hm.
  exists (pixel_x n), (pixel_y n), (pixel_x m), (pixel_y m).
  repeat split.
  - apply denorm_x_value; lia.
  - apply denorm_x_value; lia.
  - apply pixel_x_mono; lia.
  - apply denorm_y_value; lia.
  - apply denorm_y_value; lia.
  - apply pixel_y_mono; lia.
Qed.

Lemma coordinate_mapper_witness :
  denorm_x (VInt 175) = Val 251 /\ denorm_y (VInt 175) = Val 157.
Proof.
  pose proof (coordinate_mapper 175 ltac:(lia)) as (Hx & Hy & _).
  split; [exact Hx | exact Hy].
Defined.

End CoordinateMapper.

(** ** The effects, step by step *)

Section Effects.
Context {A B : Type}.
Implicit Types (P : Event -> Prop) (w : World).

Lemma bind_val (m : M A) (k : A -> M B) w a w1 :
  m w = (Val a, w1) -> bind m k w = k a w1.
Proof. unfold bind. intros ->. reflexivity. Qed.

Lemma bind_exn (m : M A) (k : A -> M B) w msg w1 :
  m w = (Exn msg, w1) -> bind m k w = (Exn msg, w1).
Proof. unfold bind. intros ->. reflexivity. Qed.

Lemma bind_inv (m : M A) (k : A -> M B) w b w' :
  bind m k w = (Val b, w') ->
  exists a w1, m w = (Val a, w1) /\ k a w1 = (Val b, w').
Proof.
  unfold bind. destruct (m w) as [[a|msg] w1]; [eauto | discriminate].
Qed.

Lemma emits_ret P (a : A) : emits P (ret a).
Proof. intros w. exists []. rewrite app_nil_r. split; [reflexivity | constructor]. Qed.

Lemma emits_raise P msg : emits P (@raise A msg).
Proof. intros w. exists []. rewrite app_nil_r. split; [reflexivity | constructor]. Qed.

Lemma emits_lift P (r : Exc A) : emits P (lift r).
Proof. intros w. exists []. rewrite app_nil_r. split; [reflexivity | constructor]. Qed.

Lemma emits_bind P (m : M A) (k : A -> M B) :
  emits P m -> (forall a, emits P (k a)) -> emits P (bind m k).
Proof.
  intros Hm Hk w. unfold bind.
  destruct (Hm w) as (evs & Ht & Hp).
  destruct (m w) as [[a|msg] w1]; simpl in *.
  - destruct (Hk a w1) as (evs' & Ht' & Hp').
    exists (evs ++ evs'). rewrite Ht', Ht, app_assoc.
    split; [reflexivity | apply Forall_app; auto].
  - exists evs. auto.
Qed.

Lemma emits_try P (m : M A) (h : string -> M A) :
  emits P m -> (forall msg, emits P (h msg)) -> emits P (try_except m h).
Proof.
  intros Hm Hh w. unfold try_except.
  destruct (Hm w) as (evs & Ht & Hp).
  destruct (m w) as [[a|msg] w1]; simpl in *.
  - exists evs. auto.
  - destruct (Hh msg w1) as (evs' & Ht' & Hp').
    exists (evs ++ evs'). rewrite Ht', Ht, app_assoc.
    split; [reflexivity | apply Forall_app; auto].
Qed.

Lemma emits_weaken P (Q : Event -> Prop) (m : M A) :
  (forall e, P e -> Q e) -> emits P m -> emits Q m.
Proof.
  intros Hpq Hm w. destruct (Hm w) as (evs & Ht & Hp).
  exists evs. split; [exact Ht | eapply Forall_impl; eauto].
Qed.
End Effects.

Lemma emits_getitem P d key : emits P (getitem d key).
Proof. unfold getitem. destruct (d !! key); [apply emits_ret | apply emits_raise]. Qed.

Lemma emits_sleep (P : Event -> Prop) ms : P (Sleep ms) -> emits P (sleep ms).
Proof. intros Hp w. exists [Sleep ms]. split; [reflexivity | repeat constructor; exact Hp]. Qed.

Lemma emits_page (P : Event -> Prop) env e : P e -> emits P (page env e).
Proof.
  intros Hp w. exists [e]. unfold page.
  destruct (page_error env (trace w) e); (split; [reflexivity | repeat constructor; exact Hp]).
Qed.

Lemma emits_input (P : Event -> Prop) prompt : P (Input prompt) -> emits P (input prompt).
Proof.
  intros Hp w. exists [Input prompt]. unfold input.
  destruct (stdin w); (split; [reflexivity | repeat constructor; exact Hp]).
Qed.

(** The steps of an [emits] proof on straight-line code. *)
Ltac emits_step :=
  first
    [ apply emits_ret
    | apply emits_raise
    | apply emits_lift
    | apply emits_getitem
    | apply emits_sleep; exact I
    | apply emits_page; exact I
    | apply emits_input; exact I
    | apply emits_bind; [| intros ?]
    | apply emits_try; [| intros ?] ].

Ltac emits_auto :=
  repeat first
    [ emits_step
    | match goal with
      | |- emits _ (if ?b then _ else _) => destruct b
      | |- emits _ (match ?x with _ => _ end) => destruct x
      end ].

Lemma returns_ret {A} (S : A -> Prop) a : S a -> returns_in S (ret a).
Proof. intros Hs w a' w' [= <- _]. exact Hs. Qed.

Lemma returns_bind {A B} (S : B -> Prop) (m : M A) (k : A -> M B) :
  (forall a, returns_in S (k a)) -> returns_in S (bind m k).
Proof.
  intros Hk w b w' Hb. apply bind_inv in Hb as (a & w1 & _ & Hb).
  exact (Hk a w1 b w' Hb).
Qed.

Ltac returns_auto :=
  repeat first
    [ apply returns_ret
    | apply returns_bind; intros ?
    | match goal with
      | |- returns_in _ (if ?b then _ else _) => destruct b
      end ].

(** ** Keys of the payloads *)

Section PayloadKeys.
Implicit Types (p : gmap string value) (r : Result).

Lemma keys_empty name : payload_keys (name, ∅).
Proof. intros k [v Hv]. simpl in Hv. rewrite lookup_empty in Hv. discriminate. Qed.

Lemma keys_ack name :
  payload_keys (name, {["safety_acknowledgement" := VBool true]}).
Proof.
  intros k [v Hv]. simpl in Hv.
  apply lookup_singleton_Some in Hv as [<- _]. auto.
Qed.

Lemma keys_denied name : payload_keys (name, user_denied).
Proof.
  intros k [v Hv]. simpl in Hv. unfold user_denied in Hv.
  apply lookup_singleton_Some in Hv as [<- _]. auto.
Qed.

Lemma keys_warning name p w :
  payload_keys (name, p) -> payload_keys (name, <["warning" := w]> p).
Proof.
  intros Hp k [v Hv]. simpl in *.
  destruct (decide ("warning" = k)) as [<-|Hne]; [auto|].
  rewrite lookup_insert_ne in Hv by exact Hne. apply Hp. eauto.
Qed.

Lemma keys_error_union name p e :
  payload_keys (name, p) -> payload_keys (name, p ∪ {["error" := e]}).
Proof.
  intros Hp k Hk. simpl in *.
  apply lookup_union_is_Some in Hk as [Hk|[v Hv]]; [apply Hp; exact Hk|].
  apply lookup_singleton_Some in Hv as [<- _]. auto.
Qed.

Lemma keys_error_insert name p e :
  payload_keys (name, p) -> payload_keys (name, <["error" := e]> p).
Proof.
  intros Hp k [v Hv]. simpl in *.
  destruct (decide ("error" = k)) as [<-|Hne]; [auto|].
  rewrite lookup_insert_ne in Hv by exact Hne. apply Hp. eauto.
Qed.

Lemma keys_no_url r : payload_keys r -> r.2 !! "url" = None.
Proof.
  intros Hr. destruct (r.2 !! "url") as [v|] eqn:Hv; [|reflexivity].
  destruct (Hr "url") as [H|[H|H]]; [eauto | discriminate H..].
Qed.
End PayloadKeys.

(** ** The executor of [agent.py] *)

Section AgentExecutor.
Variable env : Env.

Lemma agent_settle w :
  Agent.settle env w
  = (Val tt, log (Sleep 600) (log (WaitForLoadState None 5000) w)).
Proof.
  unfold Agent.settle, bind, try_except, page, sleep, ret.
  destruct (page_error env (trace w) _); reflexivity.
Qed.

Lemma agent_attempt_val name args extra w extra' w1 :
  Agent.operate env name args extra w = (Val extra', w1) ->
  Agent.attempt env name args extra w
  = (Val (name, extra'), log (Sleep 600) (log (WaitForLoadState None 5000) w1)).
Proof.
  intros Hop. unfold Agent.attempt, try_except.
  rewrite (bind_val _ _ _ _ _ Hop).
  rewrite (bind_val _ _ _ _ _ (agent_settle w1)). reflexivity.
Qed.

Lemma agent_attempt_exn name args extra w msg w1 :
  Agent.operate env name args extra w = (Exn msg, w1) ->
  Agent.attempt env name args extra w
  = (Val (name, extra ∪ {["error" := VStr msg]}), w1).
Proof.
  intros Hop. unfold Agent.attempt, try_except.
  rewrite (bind_exn _ _ _ _ _ Hop). reflexivity.
Qed.

Lemma agent_operate_extra name args extra :
  returns_in
    (fun extra' => extra' = extra
                   \/ extra' = <["warning" := VStr "unimplemented_action"]> extra)
    (Agent.operate env name args extra).
Proof.
  unfold Agent.operate. returns_auto; auto.
Qed.

Lemma agent_operate_emits name args extra :
  emits action_event (Agent.operate env name args extra).
Proof.
  unfold Agent.operate, Agent.point. emits_auto.
Qed.

Lemma agent_ask_loop_emits lines tr :
  exists evs, trace (Agent.ask_loop lines tr).2 = tr ++ evs
              /\ Forall action_event evs.
Proof.
  revert tr. induction lines as [|line rest IH]; intros tr; simpl.
  - exists [Input Agent.prompt]. split; [reflexivity | repeat constructor].
  - repeat case_bool_decide; simpl;
      try (exists [Input Agent.prompt]; split; [reflexivity | repeat constructor]).
    destruct (IH (tr ++ [Input Agent.prompt])) as (evs & Ht & Hp).
    exists (Input Agent.prompt :: evs). rewrite Ht, <- app_assoc.
    split; [reflexivity | constructor; [exact I | exact Hp]].
Qed.

Lemma agent_ask_emits sd : emits action_event (Agent.ask_confirmation sd).
Proof.
  destruct sd; simpl; try apply emits_raise.
  intros w. apply agent_ask_loop_emits.
Qed.

Lemma agent_attempt_emits name args extra :
  emits action_event (Agent.attempt env name args extra).
Proof.
  unfold Agent.attempt, Agent.settle.
  apply emits_try; [| intros ?; apply emits_ret].
  apply emits_bind; [apply agent_operate_emits | intros ?]. emits_auto.
Qed.

Lemma agent_exec_call_emits fc : emits action_event (Agent.exec_call env fc).
Proof.
  unfold Agent.exec_call.
  destruct (default ∅ (fc_args fc) !! "safety_decision").
  - apply emits_bind; [apply agent_ask_emits | intros [|]; simpl].
    + apply emits_bind; [apply agent_attempt_emits | intros ?; apply emits_ret].
    + apply emits_ret.
  - apply emits_bind; [apply agent_attempt_emits | intros ?; apply emits_ret].
Qed.

Lemma agent_exec_loop_emits fcs results :
  emits action_event (Agent.exec_loop env fcs results).
Proof.
  revert results. induction fcs as [|fc rest IH]; intros results; simpl.
  - apply emits_ret.
  - apply emits_bind; [apply agent_exec_call_emits | intros [r|r]].
    + apply IH.
    + apply emits_ret.
Qed.

Lemma agent_attempt_total name args extra w :
  payload_keys (name, extra) ->
  exists p w1, Agent.attempt env name args extra w = (Val (name, p), w1)
               /\ payload_keys (name, p).
Proof.
  intros Hk.
  destruct (Agent.operate env name args extra w) as [[extra'|msg] w1] eqn:Hop.
  - rewrite (agent_attempt_val _ _ _ _ _ _ Hop). eexists _, _. split; [reflexivity|].
    destruct (agent_operate_extra _ _ _ _ _ _ Hop) as [->| ->];
      [exact Hk | apply keys_warning; exact Hk].
  - rewrite (agent_attempt_exn _ _ _ _ _ _ Hop). eexists _, _. split; [reflexivity|].
    apply keys_error_union; exact Hk.
Qed.

(** What one round of the loop can do. *)
Lemma agent_exec_call_cases fc w :
  match Agent.exec_call env fc w with
  | (Val (Appended r), _) => r.1 = fc_name fc /\ payload_keys r
  | (Val (Returned r), _) => r = (fc_name fc, user_denied) /\ gated fc
  | (Exn _, _) => gated fc
  end.
Proof.
  unfold Agent.exec_call, gated.
  destruct (default ∅ (fc_args fc) !! "safety_decision") as [sd|] eqn:Hsd.
  - unfold bind at 1.
    destruct (Agent.ask_confirmation sd w) as [[[|]|msg] w1]; simpl; [| eauto..].
    destruct (agent_attempt_total (fc_name fc) (default ∅ (fc_args fc))
                {["safety_acknowledgement" := VBool true]} w1 (keys_ack _))
      as (p & w2 & Hat & Hk).
    rewrite (bind_val _ _ _ _ _ Hat). simpl. auto.
  - destruct (agent_attempt_total (fc_name fc) (default ∅ (fc_args fc)) ∅ w
                (keys_empty _)) as (p & w2 & Hat & Hk).
    rewrite (bind_val _ _ _ _ _ Hat). simpl. auto.
Qed.

(** [agent.py] keeps the invariant of C1: the outcomes answer the
    requests one for one and in order, up to a denial. *)
Lemma agent_exec_loop_answers fcs results w rs w' :
  Agent.exec_loop env fcs results w = (Val rs, w') ->
  exists new, rs = results ++ new /\ Forall payload_keys new /\ answers fcs new.
Proof.
  revert results w. induction fcs as [|fc rest IH]; intros results w; simpl.
  - intros [= <- <-]. exists []. rewrite app_nil_r.
    split; [reflexivity|]. split; [constructor | left; reflexivity].
  - intros Hrun. apply bind_inv in Hrun as (round & w1 & Hcall & Hrun).
    pose proof (agent_exec_call_cases fc w) as Hcases. rewrite Hcall in Hcases.
    destruct round as [r|r].
    + destruct Hcases as [Hname Hkeys].
      apply IH in Hrun as (new & -> & Hall & Hans).
      exists (r :: new). rewrite <- app_assoc. split; [reflexivity|].
      split; [constructor; assumption|].
      destruct Hans as [Hnames | (k & fc' & Hk & Hg & Hnames & Hlast)].
      * left. rewrite !fmap_cons, Hname, Hnames. reflexivity.
      * right. exists (S k), fc'. rewrite fmap_cons, Hname, Hnames.
        repeat split; try assumption.
        destruct new; [discriminate Hlast | exact Hlast].
    + destruct Hcases as [-> Hg]. injection Hrun as <- <-.
      exists [(fc_name fc, user_denied)]. split; [reflexivity|].
      split; [constructor; [apply keys_denied | constructor]|].
      right. exists 0%nat, fc. repeat split. exact Hg.
Qed.

(** A failed operation of [agent.py] becomes an outcome with the message,
    and the loop goes on with the remaining requests. *)
Lemma agent_failure_is_absorbed fc rest results w msg w1 :
  ~ gated fc ->
  Agent.operate env (fc_name fc) (default ∅ (fc_args fc)) ∅ w = (Exn msg, w1) ->
  Agent.exec_loop env (fc :: rest) results w
  = Agent.exec_loop env rest
      (results ++ [(fc_name fc, {["error" := VStr msg]})]) w1.
Proof.
  intros Hfree Hop. cbn [Agent.exec_loop]. unfold Agent.exec_call.
  destruct (default ∅ (fc_args fc) !! "safety_decision") as [sd|] eqn:Hsd.
  - destruct Hfree. unfold gated. rewrite Hsd. eauto.
  - apply agent_attempt_exn in Hop. rewrite (left_id_L ∅ (∪)) in Hop.
    unfold bind at 1. rewrite (bind_val _ _ _ _ _ Hop). reflexivity.
Qed.

(** Nothing but the confirmation prompt can make the executor raise. *)
Lemma agent_exec_loop_raises fcs results w msg w' :
  Agent.exec_loop env fcs results w = (Exn msg, w') -> Exists gated fcs.
Proof.
  revert results w. induction fcs as [|fc rest IH]; intros results w; simpl.
  - discriminate.
  - unfold bind. pose proof (agent_exec_call_cases fc w) as Hcases.
    destruct (Agent.exec_call env fc w) as [[[r|r]|msg'] w1].
    + intros Hrun. right. eapply IH. exact Hrun.
    + discriminate.
    + intros _. left. exact Hcases.
Qed.

End AgentExecutor.

(** ** Where the scripts part ways *)

Section Divergences.

(** C1 at the failing input: in [app.py] the wait for the load state is
    outside every [try], so on a page that never finishes loading the
    executor raises and the turn has no outcome at all for its one
    request; [agent.py] and [job_form.py] swallow the same timeout and
    answer the request. *)
Theorem app_load_timeout_escapes :
  App.execute_function_calls stalled [request "click_at" centre]
      SCREEN_WIDTH SCREEN_HEIGHT (fresh [])
  = (Exn "Timeout 8000ms exceeded.",
     {| trace := [MouseClick 720 450; WaitForLoadState (Some "load") 8000];
        stdin := [] |})
  /\ Agent.exec_calls stalled [request "click_at" centre] (fresh [])
     = (Val [("click_at", ∅)],
        {| trace := [MouseClick 720 450; WaitForLoadState None 5000; Sleep 600];
           stdin := [] |})
  /\ JobForm.exec_calls stalled [request "click_at" centre] (fresh [])
     = (Val [("click_at", ∅)],
        {| trace := [MouseClick 720 450; WaitForLoadState None 4000; Sleep 500];
           stdin := [] |}).
Proof. repeat split; vm_compute; reflexivity. Qed.

(** C2 at the failing input: when the operator answers no, [app.py]
    leaves the loop without recording anything for the denied request;
    [agent.py] and [job_form.py] record the [user_denied] outcome.  None
    of the three touches the browser. *)
Theorem app_denial_leaves_no_outcome :
  App.execute_function_calls calm [request "click_at" (risky centre)]
      SCREEN_WIDTH SCREEN_HEIGHT (fresh ["n"])
  = (Val [],
     {| trace := [Input "Proceed with this action? [Y/N]: "]; stdin := [] |})
  /\ Agent.exec_calls calm [request "click_at" (risky centre)] (fresh ["n"])
     = (Val [("click_at", user_denied)],
        {| trace := [Input "Continue? [y/N]: "]; stdin := [] |})
  /\ JobForm.exec_calls calm [request "click_at" (risky centre)] (fresh ["n"])
     = (Val [("click_at", user_denied)],
        {| trace := [Input "Proceed? [y/N]: "]; stdin := [] |}).
Proof. repeat split; vm_compute; reflexivity. Qed.

(** C4 at the failing input: in [agent.py] and [job_form.py] the wait and
    the settling delay sit inside the [try], so a navigation that raises
    is followed by neither; [app.py] does attempt the wait after a failed
    operation. *)
Theorem failed_action_is_not_settled :
  Agent.exec_calls offline
      [request "navigate" {[ "url" := VStr "https://example.com" ]}] (fresh [])
  = (Val [("navigate", {[ "error" := VStr "net::ERR_INTERNET_DISCONNECTED" ]})],
     {| trace := [Goto (VStr "https://example.com")]; stdin := [] |})
  /\ JobForm.exec_calls offline
      [request "navigate" {[ "url" := VStr "https://example.com" ]}] (fresh [])
     = (Val [("navigate", {[ "error" := VStr "net::ERR_INTERNET_DISCONNECTED" ]})],
        {| trace := [Goto (VStr "https://example.com")]; stdin := [] |})
  /\ App.execute_function_calls calm [request "click_at" ∅]
       SCREEN_WIDTH SCREEN_HEIGHT (fresh [])
     = (Val [("click_at", {[ "error" := VStr "'x'" ]})],
        {| trace := [WaitForLoadState (Some "load") 8000; Sleep 1000];
           stdin := [] |}).
Proof. repeat split; vm_compute; reflexivity. Qed.

(** C5 at the failing input: in [app.py] the click that raises is
    caught, but the wait that follows it is not: the timeout leaves the
    executor as an exception and the error of the click reaches no
    outcome.  [agent.py] turns the same failure into an outcome. *)
Theorem app_failure_reaches_the_turn_loop :
  App.execute_function_calls closed [request "click_at" centre]
      SCREEN_WIDTH SCREEN_HEIGHT (fresh [])
  = (Exn "Timeout 8000ms exceeded.",
     {| trace := [MouseClick 720 450; WaitForLoadState (Some "load") 8000];
        stdin := [] |})
  /\ Agent.exec_calls closed [request "click_at" centre] (fresh [])
     = (Val [("click_at",
              {[ "error" := VStr "Target page, context or browser has been closed" ]})],
        {| trace := [MouseClick 720 450]; stdin := [] |}).
Proof. repeat split; vm_compute; reflexivity. Qed.

(** C7 at the failing input: for a name that no script knows,
    [job_form.py] marks the outcome with ["unimplemented"], where
    [agent.py] writes ["unimplemented_action"]. *)
Theorem job_form_warning_marker :
  JobForm.exec_calls calm [request "press_button" ∅] (fresh [])
  = (Val [("press_button", {[ "warning" := VStr "unimplemented" ]})],
     {| trace := [WaitForLoadState None 4000; Sleep 500]; stdin := [] |})
  /\ Agent.exec_calls calm [request "press_button" ∅] (fresh [])
     = (Val [("press_button", {[ "warning" := VStr "unimplemented_action" ]})],
        {| trace := [WaitForLoadState None 5000; Sleep 600]; stdin := [] |}).
Proof. repeat split; vm_compute; reflexivity. Qed.

End Divergences.

(** ** Running straight-line code *)

Lemma bind_cases {A B} (m : M A) (k : A -> M B) w r w' :
  bind m k w = (r, w') ->
  (exists a w1, m w = (Val a, w1) /\ k a w1 = (r, w'))
  \/ (exists msg, m w = (Exn msg, w') /\ r = Exn msg).
Proof.
  unfold bind. destruct (m w) as [[a|msg] w1]; [eauto|].
  intros [= <- <-]. eauto.
Qed.

Lemma page_world env e w r w' : page env e w = (r, w') -> w' = log e w.
Proof.
  unfold page. destruct (page_error env (trace w) e); intros [= _ <-]; reflexivity.
Qed.

Lemma getitem_cases d key w r w' :
  getitem d key w = (r, w') ->
  w' = w /\ ((exists v, d !! key = Some v /\ r = Val v)
             \/ (d !! key = None /\ exists msg, r = Exn msg)).
Proof.
  unfold getitem. destruct (d !! key); intros [= <- <-]; split; eauto.
Qed.

Lemma lift_cases {A} (r0 : Exc A) w r w' : lift r0 w = (r, w') -> w' = w /\ r = r0.
Proof. intros [= <- <-]. auto. Qed.

Lemma ret_cases {A} (a : A) w r w' : ret a w = (r, w') -> w' = w /\ r = Val a.
Proof. intros [= <- <-]. auto. Qed.

(** Symbolic execution of a hypothesis [m w = (r, w')]. *)
Ltac exec :=
  repeat match goal with
  | H : bind _ _ _ = _ |- _ =>
      apply bind_cases in H as [(? & ? & ? & H) | (? & H & ?)]
  | H : getitem _ _ _ = _ |- _ =>
      apply getitem_cases in H as [? [(? & ? & ?) | (? & ? & ?)]]
  | H : lift _ _ = _ |- _ => apply lift_cases in H as [? ?]
  | H : page _ _ _ = _ |- _ => apply page_world in H
  | H : ret _ _ = _ |- _ => apply ret_cases in H as [? ?]
  | H : (if ?b then _ else _) _ = _ |- _ => destruct b eqn:?
  | _ => progress simplify_eq
  end.

(** Both sides of an equation between two runs are unfolded and run
    along the answers of the browser. *)
Ltac run_both :=
  cbn [play]; unfold bind, page, getitem, lift, ret, raise;
  repeat (match goal with
          | H : ?d !! ?k = _ |- context [?d !! ?k] => rewrite H
          | H : denorm_x ?x = _ |- context [denorm_x ?x] => rewrite H
          | H : denorm_y ?y = _ |- context [denorm_y ?y] => rewrite H
          | |- context [page_error ?env ?tr ?e] => destruct (page_error env tr e)
          end; cbv beta iota zeta; cbn [trace log stdin fst snd]);
  try reflexivity; try (eexists; reflexivity).

(** ** Typing into a field *)

Section TypeText.
Variable env : Env.

Lemma agent_type_text args extra w :
  args !! "clear_before_typing" = None ->
  clears_then_types env true args extra w (Agent.operate env "type_text_at" args extra w).
Proof.
  intros Hc. unfold clears_then_types, pixel, Agent.operate.
  cbn [String.eqb Ascii.eqb Bool.eqb]. rewrite Hc. cbn [default Py.truthy].
  unfold Agent.point, select_all, backspace, enter.
  destruct (Py.truthy (default (VBool true) (args !! "press_enter")));
    destruct (args !! "text") as [t|] eqn:Ht;
    destruct (args !! "x") as [x|] eqn:Hx;
    destruct (args !! "y") as [y|] eqn:Hy;
    try destruct (denorm_x x) as [px|ex] eqn:Hpx;
    try destruct (denorm_y y) as [py|ey] eqn:Hpy;
    run_both.
Qed.

Lemma job_form_type_text args meta w :
  args !! "clear_before_typing" = None ->
  clears_then_types env false args meta w (JobForm.operate env "type_text_at" args meta w).
Proof.
  intros Hc. unfold clears_then_types, pixel, JobForm.operate.
  cbn [String.eqb Ascii.eqb Bool.eqb]. rewrite Hc. cbn [default Py.truthy].
  unfold select_all, backspace, enter.
  destruct (Py.truthy (default (VBool false) (args !! "press_enter")));
    destruct (args !! "text") as [t|] eqn:Ht;
    destruct (args !! "x") as [x|] eqn:Hx;
    destruct (args !! "y") as [y|] eqn:Hy;
    try destruct (denorm_x x) as [px|ex] eqn:Hpx;
    try destruct (denorm_y y) as [py|ey] eqn:Hpy;
    run_both.
Qed.

Lemma default_is_true (args : gmap string value) (key : string) :
  args !! "clear_before_typing" = None ->
  key <> "clear_before_typing" ->
  <["clear_before_typing" := VBool true]> args !! key = args !! key.
Proof. intros _ Hk. apply lookup_insert_ne. congruence. Qed.

(** C9: a [type_text_at] request without [clear_before_typing] clears the
    field before it types, in [agent.py] and in [job_form.py].  The run is
    the one of the request with the flag set to [True]; and it is this:
    nothing at all when a coordinate is missing or does not map, else the
    click at the mapped pixel, the select-all and the delete, each one
    attempted as soon as the one before went through, and only then the
    typing of the text and the Enter the script presses. *)
Theorem type_text_clears_by_default args extra w :
  args !! "clear_before_typing" = None ->
  (clears_then_types env true args extra w (Agent.operate env "type_text_at" args extra w)
   /\ Agent.operate env "type_text_at" args extra w
      = Agent.operate env "type_text_at"
          (<["clear_before_typing" := VBool true]> args) extra w)
  /\ (clears_then_types env false args extra w
        (JobForm.operate env "type_text_at" args extra w)
      /\ JobForm.operate env "type_text_at" args extra w
         = JobForm.operate env "type_text_at"
             (<["clear_before_typing" := VBool true]> args) extra w).
Proof.
  intros Hc. split; split.
  - apply agent_type_text. exact Hc.
  - unfold Agent.operate. cbn [String.eqb Ascii.eqb Bool.eqb].
    unfold Agent.point, getitem.
    rewrite (default_is_true args "x" Hc), (default_is_true args "y" Hc),
      (default_is_true args "text" Hc), (default_is_true args "press_enter" Hc)
      by discriminate.
    rewrite Hc, lookup_insert_eq. reflexivity.
  - apply job_form_type_text. exact Hc.
  - unfold JobForm.operate. cbn [String.eqb Ascii.eqb Bool.eqb].
    unfold getitem.
    rewrite (default_is_true args "x" Hc), (default_is_true args "y" Hc),
      (default_is_true args "text" Hc), (default_is_true args "press_enter" Hc)
      by discriminate.
    rewrite Hc, lookup_insert_eq. reflexivity.
Qed.

End TypeText.

Lemma type_text_clears_by_default_witness :
  Agent.operate calm "type_text_at" hello ∅ (fresh [])
  = (play calm (typing_script 720 450 (VStr "hello")) ;; ret ∅) (fresh [])
  /\ JobForm.operate calm "type_text_at" hello ∅ (fresh [])
     = (play calm (take 4 (typing_script 720 450 (VStr "hello"))) ;; ret ∅) (fresh []).
Proof.
  destruct (type_text_clears_by_default calm hello ∅ (fresh []) eq_refl)
    as [[Ha _] [Hj _]].
  split.
  - etransitivity; [exact Ha|]. vm_compute. reflexivity.
  - etransitivity; [exact Hj|]. vm_compute. reflexivity.
Defined.

(** The scenario of the spec: click, select-all, delete, type, Enter. *)
Example type_hello :
  Agent.operate calm "type_text_at" hello ∅ (fresh [])
  = (Val ∅, {| trace := typing_script 720 450 (VStr "hello"); stdin := [] |}).
Proof. vm_compute. reflexivity. Qed.

(** ** The executor of [job_form.py] *)

Section JobFormExecutor.
Variable env : Env.

Lemma job_form_settle w :
  JobForm.settle env w
  = (Val tt, log (Sleep 500) (log (WaitForLoadState None 4000) w)).
Proof.
  unfold JobForm.settle, bind, try_except, page, sleep, ret.
  destruct (page_error env (trace w) _); reflexivity.
Qed.

Lemma job_form_attempt_val name args meta w meta' w1 :
  JobForm.operate env name args meta w = (Val meta', w1) ->
  JobForm.attempt env name args meta w
  = (Val (name, meta'), log (Sleep 500) (log (WaitForLoadState None 4000) w1)).
Proof.
  intros Hop. unfold JobForm.attempt, try_except.
  rewrite (bind_val _ _ _ _ _ Hop).
  rewrite (bind_val _ _ _ _ _ (job_form_settle w1)). reflexivity.
Qed.

Lemma job_form_attempt_exn name args meta w msg w1 :
  JobForm.operate env name args meta w = (Exn msg, w1) ->
  JobForm.attempt env name args meta w
  = (Val (name, meta ∪ {["error" := VStr msg]}), w1).
Proof.
  intros Hop. unfold JobForm.attempt, try_except.
  rewrite (bind_exn _ _ _ _ _ Hop). reflexivity.
Qed.

Lemma job_form_operate_extra name args meta :
  returns_in
    (fun meta' => meta' = meta \/ meta' = <["warning" := VStr "unimplemented"]> meta)
    (JobForm.operate env name args meta).
Proof.
  unfold JobForm.operate. returns_auto; auto.
Qed.

Lemma job_form_operate_emits name args meta :
  emits action_event (JobForm.operate env name args meta).
Proof.
  unfold JobForm.operate. emits_auto.
Qed.

Lemma job_form_ask_emits sd : emits action_event (JobForm.ask_confirmation sd).
Proof.
  destruct sd; simpl; try apply emits_raise. emits_auto.
Qed.

Lemma job_form_attempt_emits name args meta :
  emits action_event (JobForm.attempt env name args meta).
Proof.
  unfold JobForm.attempt, JobForm.settle.
  apply emits_try; [| intros ?; apply emits_ret].
  apply emits_bind; [apply job_form_operate_emits | intros ?]. emits_auto.
Qed.

Lemma job_form_exec_call_emits fc : emits action_event (JobForm.exec_call env fc).
Proof.
  unfold JobForm.exec_call.
  destruct (default ∅ (fc_args fc) !! "safety_decision").
  - apply emits_bind; [apply job_form_ask_emits | intros [|]; simpl].
    + apply emits_bind; [apply job_form_attempt_emits | intros ?; apply emits_ret].
    + apply emits_ret.
  - apply emits_bind; [apply job_form_attempt_emits | intros ?; apply emits_ret].
Qed.

Lemma job_form_exec_loop_emits fcs results :
  emits action_event (JobForm.exec_loop env fcs results).
Proof.
  revert results. induction fcs as [|fc rest IH]; intros results; simpl.
  - apply emits_ret.
  - apply emits_bind; [apply job_form_exec_call_emits | intros [r|r]].
    + apply IH.
    + apply emits_ret.
Qed.

End JobFormExecutor.

(** ** The acknowledgement on the error path *)

Section Acknowledgement.
Variable env : Env.

Lemma error_with_acknowledgement msg :
  (acknowledged ∪ {["error" := VStr msg]} : gmap string value) !! "error"
    = Some (VStr msg)
  /\ (acknowledged ∪ {["error" := VStr msg]} : gmap string value)
       !! "safety_acknowledgement" = Some (VBool true).
Proof.
  unfold acknowledged. split.
  - rewrite lookup_union_r by (apply lookup_singleton_ne; discriminate).
    apply lookup_singleton_eq.
  - apply lookup_union_Some_l. apply lookup_singleton_eq.
Qed.

(** C10: in [agent.py] and in [job_form.py], when the operator allows a
    request that carries a safety decision and the operation then raises
    [msg], the round appends an outcome whose payload holds both
    ["error"] with [msg] and ["safety_acknowledgement"] with [True]. *)
Theorem acknowledgement_survives_error fc sd w w1 msg w2 :
  default ∅ (fc_args fc) !! "safety_decision" = Some sd ->
  (Agent.ask_confirmation sd w = (Val true, w1) ->
   Agent.operate env (fc_name fc) (default ∅ (fc_args fc)) acknowledged w1
     = (Exn msg, w2) ->
   exists p, Agent.exec_call env fc w = (Val (Appended (fc_name fc, p)), w2)
             /\ p !! "error" = Some (VStr msg)
             /\ p !! "safety_acknowledgement" = Some (VBool true))
  /\ (JobForm.ask_confirmation sd w = (Val true, w1) ->
      JobForm.operate env (fc_name fc) (default ∅ (fc_args fc)) acknowledged w1
        = (Exn msg, w2) ->
      exists p, JobForm.exec_call env fc w = (Val (Appended (fc_name fc, p)), w2)
                /\ p !! "error" = Some (VStr msg)
                /\ p !! "safety_acknowledgement" = Some (VBool true)).
Proof.
  intros Hsd. split; intros Hask Hop;
    exists (acknowledged ∪ {["error" := VStr msg]});
    (split; [| apply error_with_acknowledgement]).
  - unfold Agent.exec_call. rewrite Hsd.
    rewrite (bind_val _ _ _ _ _ Hask). cbn [negb].
    apply agent_attempt_exn in Hop.
    rewrite (bind_val _ _ _ _ _ Hop). reflexivity.
  - unfold JobForm.exec_call. rewrite Hsd.
    rewrite (bind_val _ _ _ _ _ Hask). cbn [negb].
    apply job_form_attempt_exn in Hop.
    rewrite (bind_val _ _ _ _ _ Hop). reflexivity.
Qed.

End Acknowledgement.

Lemma acknowledgement_survives_error_witness :
  (exists p,
     Agent.exec_call closed risky_click (fresh ["y"])
     = (Val (Appended ("click_at", p)),
        {| trace := [Input "Continue? [y/N]: "; MouseClick 720 450]; stdin := [] |})
     /\ p !! "error" = Some (VStr "Target page, context or browser has been closed")
     /\ p !! "safety_acknowledgement" = Some (VBool true))
  /\ (exists p,
        JobForm.exec_call closed risky_click (fresh ["y"])
        = (Val (Appended ("click_at", p)),
           {| trace := [Input "Proceed? [y/N]: "; MouseClick 720 450]; stdin := [] |})
        /\ p !! "error" = Some (VStr "Target page, context or browser has been closed")
        /\ p !! "safety_acknowledgement" = Some (VBool true)).
Proof.
  split.
  - refine (proj1 (acknowledgement_survives_error closed risky_click
                     (VDict {[ "explanation" := "This submits the form." ]})
                     (fresh ["y"])
                     {| trace := [Input "Continue? [y/N]: "]; stdin := [] |}
                     "Target page, context or browser has been closed"
                     {| trace := [Input "Continue? [y/N]: "; MouseClick 720 450];
                        stdin := [] |} _) _ _);
      vm_compute; reflexivity.
  - refine (proj2 (acknowledgement_survives_error closed risky_click
                     (VDict {[ "explanation" := "This submits the form." ]})
                     (fresh ["y"])
                     {| trace := [Input "Proceed? [y/N]: "]; stdin := [] |}
                     "Target page, context or browser has been closed"
                     {| trace := [Input "Proceed? [y/N]: "; MouseClick 720 450];
                        stdin := [] |} _) _ _);
      vm_compute; reflexivity.
Defined.

(** ** The executor of [app.py] *)

Section AppExecutor.
Variable env : Env.
Variables screen_width screen_height : Z.

Lemma app_operate_emits fname args :
  emits action_event (App.operate env fname args screen_width screen_height).
Proof.
  unfold App.operate. emits_auto.
Qed.

Lemma app_confirmation_emits sd :
  emits action_event (App.get_safety_confirmation sd).
Proof.
  unfold App.get_safety_confirmation. emits_auto.
Qed.

Lemma app_perform_emits fname args extra :
  emits action_event (App.perform env fname args extra screen_width screen_height).
Proof.
  unfold App.perform.
  apply emits_bind; [| intros ?; emits_auto].
  apply emits_try; [| intros ?; apply emits_ret].
  apply emits_bind; [apply app_operate_emits | intros ?; apply emits_ret].
Qed.

Lemma app_exec_part_emits part :
  emits action_event (App.exec_part env part screen_width screen_height).
Proof.
  unfold App.exec_part.
  destruct (function_call part) as [fc|]; [| apply emits_ret].
  destruct (fc_args fc) as [args|]; [| apply emits_raise].
  destruct (args !! "safety_decision").
  - apply emits_bind; [apply app_confirmation_emits | intros ?].
    destruct (String.eqb _ _); [apply emits_ret|].
    apply emits_bind; [apply app_perform_emits | intros ?; apply emits_ret].
  - apply emits_bind; [apply app_perform_emits | intros ?; apply emits_ret].
Qed.

Lemma app_exec_loop_emits parts results :
  emits action_event (App.exec_loop env parts screen_width screen_height results).
Proof.
  revert results. induction parts as [|part rest IH]; intros results; simpl.
  - apply emits_ret.
  - apply emits_bind; [apply app_exec_part_emits | intros [| |r]];
      [apply IH | apply emits_ret | apply IH].
Qed.

Lemma app_perform_keys fname args extra :
  payload_keys (fname, extra) ->
  returns_in payload_keys
    (App.perform env fname args extra screen_width screen_height).
Proof.
  intros Hk w r w' Hrun. unfold App.perform in Hrun.
  apply bind_inv in Hrun as (extra' & w1 & Htry & Hrun).
  apply bind_inv in Hrun as (? & w2 & _ & Hrun).
  apply bind_inv in Hrun as (? & w3 & _ & Hrun).
  injection Hrun as <- _.
  unfold try_except in Htry.
  destruct (bind _ _ w) as [[e|msg] w0] eqn:Hop in Htry.
  - apply bind_inv in Hop as (? & ? & _ & [= <- _]).
    injection Htry as <- _. exact Hk.
  - injection Htry as <- _. apply keys_error_insert. exact Hk.
Qed.

Lemma app_exec_part_keys part :
  returns_in (fun pass => match pass with App.Add r => payload_keys r | _ => True end)
    (App.exec_part env part screen_width screen_height).
Proof.
  intros w pass w' Hrun. unfold App.exec_part in Hrun.
  destruct (function_call part) as [fc|]; [| injection Hrun as <- _; exact I].
  destruct (fc_args fc) as [args|]; [| discriminate Hrun].
  destruct (args !! "safety_decision").
  - apply bind_inv in Hrun as (decision & w1 & _ & Hrun).
    destruct (String.eqb decision "TERMINATE"); [injection Hrun as <- _; exact I|].
    apply bind_inv in Hrun as (r & w2 & Hperf & [= <- _]).
    exact (app_perform_keys _ _ _ (keys_ack _) _ _ _ Hperf).
  - apply bind_inv in Hrun as (r & w2 & Hperf & [= <- _]).
    exact (app_perform_keys _ _ _ (keys_empty _) _ _ _ Hperf).
Qed.

Lemma app_exec_loop_keys parts results :
  Forall payload_keys results ->
  returns_in (Forall payload_keys)
    (App.exec_loop env parts screen_width screen_height results).
Proof.
  revert results. induction parts as [|part rest IH]; intros results Hres w rs w' Hrun;
    simpl in Hrun.
  - injection Hrun as <- _. exact Hres.
  - apply bind_inv in Hrun as (pass & w1 & Hpart & Hrun).
    pose proof (app_exec_part_keys _ _ _ _ Hpart) as Hk.
    destruct pass as [| |r].
    + exact (IH _ Hres _ _ _ Hrun).
    + injection Hrun as <- _. exact Hres.
    + refine (IH _ _ _ _ _ Hrun). apply Forall_app. split; [exact Hres|].
      constructor; [exact Hk | constructor].
Qed.

End AppExecutor.

(** ** The observation *)

Section Observation.
Variable env : Env.

Lemma same_builder rs :
  App.get_function_responses env rs = Agent.build_function_responses env rs.
Proof. reflexivity. Qed.

Lemma build_one_observation rs w1 :
  Forall payload_keys rs ->
  one_observation env (Agent.build_function_responses env) rs w1.
Proof.
  intros Hkeys. unfold one_observation, Agent.build_function_responses.
  unfold bind, screenshot, url, ret.
  destruct (page_error env (trace w1) Screenshot) as [msg|]; [reflexivity|].
  eexists. split.
  { unfold log. cbn [trace stdin]. rewrite <- app_assoc. reflexivity. }
  split; [apply length_fmap|].
  intros i r Hi. eexists. split; [rewrite list_lookup_fmap, Hi; reflexivity|].
  cbn [fr_name fr_parts fr_response].
  assert (Hr : payload_keys r)
    by (rewrite Forall_forall in Hkeys; apply Hkeys; eapply list_elem_of_lookup_2; eauto).
  repeat split.
  - rewrite lookup_union_r by (apply keys_no_url; exact Hr).
    apply lookup_singleton_eq.
  - intros k Hk. apply lookup_union_l. apply lookup_singleton_ne. congruence.
Qed.

(** C8: the actions of a turn take no screenshot and read no address;
    the observation builder of [agent.py] and that of [app.py] then
    take exactly one screenshot and read the address exactly once, and
    answer every collected outcome, in order, with that same screenshot
    and that same address next to the outcome's own fields.  The builder
    returns these responses whenever the screenshot can be taken; it
    raises only when the screenshot does, with the exception of the
    screenshot and nothing else done. *)
Theorem one_screenshot_per_turn parts w rs w1 :
  (Agent.exec_calls env parts w = (Val rs, w1) ->
   (exists evs, trace w1 = trace w ++ evs /\ Forall action_event evs)
   /\ one_observation env (Agent.build_function_responses env) rs w1)
  /\ (App.execute_function_calls env parts SCREEN_WIDTH SCREEN_HEIGHT w = (Val rs, w1) ->
      (exists evs, trace w1 = trace w ++ evs /\ Forall action_event evs)
      /\ one_observation env (App.get_function_responses env) rs w1).
Proof.
  split; intros Hrun.
  - split.
    + pose proof (agent_exec_loop_emits env (function_calls parts) [] w) as Hem.
      unfold Agent.exec_calls in Hrun. rewrite Hrun in Hem. exact Hem.
    + apply build_one_observation.
      apply agent_exec_loop_answers in Hrun as (new & -> & Hkeys & _). exact Hkeys.
  - split.
    + pose proof (app_exec_loop_emits env SCREEN_WIDTH SCREEN_HEIGHT parts [] w) as Hem.
      unfold App.execute_function_calls in Hrun. rewrite Hrun in Hem. exact Hem.
    + apply build_one_observation.
      exact (app_exec_loop_keys env _ _ parts [] (Forall_nil_2 _) _ _ _ Hrun).
Qed.

End Observation.

(** ** The turn loop *)

Section TurnLoop.
Variable env : Env.

Lemma build_trace rs w frs w' :
  Agent.build_function_responses env rs w = (Val frs, w') ->
  trace w' = trace w ++ [Screenshot; ReadUrl].
Proof.
  unfold Agent.build_function_responses, bind, screenshot, url, ret.
  destruct (page_error env (trace w) Screenshot); [discriminate|].
  intros [= _ <-]. cbn [trace log]. rewrite <- app_assoc. reflexivity.
Qed.

Lemma played_after_turn tr contents parts evs k tr' :
  model_reply env tr contents = Val parts ->
  any_function_call parts = true ->
  Forall action_event evs ->
  played env (((tr ++ [GenerateContent contents]) ++ evs) ++ [Screenshot; ReadUrl]) k tr' ->
  played env tr (S k) tr'.
Proof.
  intros Hrep Hfc Hact Hplay. eapply played_turn; eauto.
  rewrite <- !app_assoc in Hplay. exact Hplay.
Qed.

Lemma agent_loop_classified turns contents w :
  classified env turns w (Agent.agent_loop env turns contents w).
Proof.
  revert contents w. induction turns as [|n IH]; intros contents w.
  - apply played_none.
  - cbn [Agent.agent_loop]. unfold bind at 1, generate_content.
    destruct (model_reply env (trace w) contents) as [parts|msg] eqn:Hrep; [|exact I].
    destruct (any_function_call parts) eqn:Hfc; cbn [negb].
    + unfold bind at 1.
      destruct (agent_exec_loop_emits env (function_calls parts) []
                  (log (GenerateContent contents) w)) as (evs & Hevs & Hact).
      fold (Agent.exec_calls env parts) in Hevs.
      destruct (Agent.exec_calls env parts (log (GenerateContent contents) w))
        as [[rs|msg] w2]; [|exact I].
      cbn [snd trace log] in Hevs. unfold bind at 1.
      destruct (Agent.build_function_responses env rs w2) as [[frs|msg] w3] eqn:Hb;
        [|exact I].
      apply build_trace in Hb. rewrite Hevs in Hb.
      specialize (IH ((contents ++ [ModelContent parts]) ++ [UserResponses frs]) w3).
      destruct (Agent.agent_loop env n _ w3) as [[[final|]|msg] w']; cbn in IH |- *.
      * destruct IH as (k & tr & c & ps & Hk & Hplay & Htr & Hc & Hno & Hfin).
        exists (S k), tr, c, ps. rewrite Hb in Hplay.
        repeat split; try assumption; [lia|].
        eapply played_after_turn; eauto.
      * rewrite Hb in IH. eapply played_after_turn; eauto.
      * exact I.
    + cbn. exists 0%nat, (trace w), contents, parts.
      repeat split; try assumption; [lia | apply played_none].
Qed.

Lemma job_form_loop_classified turns contents w :
  classified env turns w (JobForm.turn_loop env turns contents w).
Proof.
  revert contents w. induction turns as [|n IH]; intros contents w.
  - apply played_none.
  - cbn [JobForm.turn_loop]. unfold bind at 1, generate_content.
    destruct (model_reply env (trace w) contents) as [parts|msg] eqn:Hrep; [|exact I].
    destruct (any_function_call parts) eqn:Hfc; cbn [negb].
    + unfold bind at 1.
      destruct (job_form_exec_loop_emits env (function_calls parts) []
                  (log (GenerateContent contents) w)) as (evs & Hevs & Hact).
      fold (JobForm.exec_calls env parts) in Hevs.
      destruct (JobForm.exec_calls env parts (log (GenerateContent contents) w))
        as [[rs|msg] w2]; [|exact I].
      cbn [snd trace log] in Hevs. unfold bind at 1.
      destruct (JobForm.build_function_responses env rs w2) as [[frs|msg] w3] eqn:Hb;
        [|exact I].
      apply build_trace in Hb. rewrite Hevs in Hb.
      specialize (IH ((contents ++ [ModelContent parts]) ++ [UserResponses frs]) w3).
      destruct (JobForm.turn_loop env n _ w3) as [[[final|]|msg] w']; cbn in IH |- *.
      * destruct IH as (k & tr & c & ps & Hk & Hplay & Htr & Hc & Hno & Hfin).
        exists (S k), tr, c, ps. rewrite Hb in Hplay.
        repeat split; try assumption; [lia|].
        eapply played_after_turn; eauto.
      * rewrite Hb in IH. eapply played_after_turn; eauto.
      * exact I.
    + cbn. exists 0%nat, (trace w), contents, parts.
      repeat split; try assumption; [lia | apply played_none].
Qed.

Lemma model_calls_app tr1 tr2 :
  model_calls (tr1 ++ tr2) = (model_calls tr1 + model_calls tr2)%nat.
Proof. unfold model_calls. rewrite List.filter_app, length_app. reflexivity. Qed.

Lemma model_calls_actions evs : Forall action_event evs -> model_calls evs = 0%nat.
Proof.
  induction 1 as [|e evs He _ IH]; [reflexivity|].
  unfold model_calls in *. destruct e; cbn in *; try exact IH. destruct He.
Qed.

(** Every full turn calls the model exactly once. *)
Lemma played_model_calls tr n tr' :
  played env tr n tr' -> model_calls tr' = (model_calls tr + n)%nat.
Proof.
  induction 1 as [tr|tr contents parts evs n tr' _ _ Hact _ IH]; [lia|].
  rewrite IH, model_calls_app.
  change (GenerateContent contents :: evs ++ [Screenshot; ReadUrl])
    with ([GenerateContent contents] ++ evs ++ [Screenshot; ReadUrl]).
  rewrite !model_calls_app, (model_calls_actions evs Hact). cbn. lia.
Qed.

(** The turn loop as the code has it: a run of the loop of [agent.py] or
    of [job_form.py] that no exception cuts short ends in one of two
    ways.  It is done as soon as a reply of the model holds no function
    call, after fewer than ten full turns; or it reaches the step limit
    after ten full turns, each begun by a reply that held a function
    call.  Whatever outcomes the executor returns, the observation is
    built and appended and the loop goes on with the turns that remain. *)
Theorem session_termination contents w :
  classified env 10 w (Agent.agent_loop env 10 contents w)
  /\ classified env 10 w (JobForm.turn_loop env JobForm.TURN_LIMIT contents w)
  /\ (forall turns parts w1 rs w2 frs w3,
        generate_content env contents w = (Val parts, w1) ->
        any_function_call parts = true ->
        Agent.exec_calls env parts w1 = (Val rs, w2) ->
        Agent.build_function_responses env rs w2 = (Val frs, w3) ->
        Agent.agent_loop env (S turns) contents w
        = Agent.agent_loop env turns
            ((contents ++ [ModelContent parts]) ++ [UserResponses frs]) w3)
  /\ (forall turns parts w1 rs w2 frs w3,
        generate_content env contents w = (Val parts, w1) ->
        any_function_call parts = true ->
        JobForm.exec_calls env parts w1 = (Val rs, w2) ->
        JobForm.build_function_responses env rs w2 = (Val frs, w3) ->
        JobForm.turn_loop env (S turns) contents w
        = JobForm.turn_loop env turns
            ((contents ++ [ModelContent parts]) ++ [UserResponses frs]) w3).
Proof.
  split; [apply agent_loop_classified|].
  split; [apply job_form_loop_classified|].
  split; intros turns parts w1 rs w2 frs w3 Hgen Hfc Hexec Hbuild.
  - cbn [Agent.agent_loop]. rewrite (bind_val _ _ _ _ _ Hgen), Hfc. cbn [negb].
    rewrite (bind_val _ _ _ _ _ Hexec), (bind_val _ _ _ _ _ Hbuild). reflexivity.
  - cbn [JobForm.turn_loop]. rewrite (bind_val _ _ _ _ _ Hgen), Hfc. cbn [negb].
    rewrite (bind_val _ _ _ _ _ Hexec), (bind_val _ _ _ _ _ Hbuild). reflexivity.
Qed.

End TurnLoop.

(** C3 at the failing input: a model that asks for the same risky click
    in every turn, and an operator who refuses it every time.  [agent.py]
    prints that it stops and [app.py] that the agent is terminated, but no
    turn loop ever looks at the denial: after the first one the loop of
    [agent.py] and that of [job_form.py] send the [user_denied] outcome to
    the model and go on; all three call the model ten times and end on the
    step limit, where the claim has the session end after the turn of the
    denial. *)
Theorem session_goes_on_after_denial :
  let agent := Agent.agent_loop insistent 10 goal_and_shot (fresh (replicate 10 "n")) in
  let job_form :=
    JobForm.turn_loop insistent JobForm.TURN_LIMIT goal_and_shot
      (fresh (replicate 10 "n")) in
  let app := AppSession.turn_loop insistent 10 goal_and_shot (fresh (replicate 10 "n")) in
  (agent.1 = Val StepLimit
   /\ model_calls (trace agent.2) = 10%nat
   /\ asked_after_denial (trace agent.2) = true
   /\ stdin agent.2 = [])
  /\ (job_form.1 = Val StepLimit
      /\ model_calls (trace job_form.2) = 10%nat
      /\ asked_after_denial (trace job_form.2) = true
      /\ stdin job_form.2 = [])
  /\ (app.1 = Val StepLimit
      /\ model_calls (trace app.2) = 10%nat
      /\ stdin app.2 = []).
Proof. vm_compute. repeat split; reflexivity. Qed.

(** One turn of it: the denial is reported to the model, and the loop goes
    on with the turns that remain. *)
Lemma session_termination_witness :
  exists frs w3,
    Agent.agent_loop insistent 1 goal_and_shot (fresh ["n"])
    = Agent.agent_loop insistent 0
        ((goal_and_shot ++ [ModelContent [request "click_at" (risky centre)]])
           ++ [UserResponses frs]) w3
    /\ reports_denial (UserResponses frs) = true.
Proof.
  eexists _, _. split.
  - eapply (proj1 (proj2 (proj2 (session_termination insistent goal_and_shot
                                    (fresh ["n"]))))).
    + vm_compute. reflexivity.
    + vm_compute. reflexivity.
    + vm_compute. reflexivity.
    + vm_compute. reflexivity.
  - vm_compute. reflexivity.
Defined.

(** A run that is done at once, with the texts of the reply joined. *)
Example done_at_once :
  Agent.main satisfied "Say hello." (fresh [])
  = (Val (Done "All done."),
     {| trace := [ Goto (VStr "https://www.google.com"); Screenshot;
                   GenerateContent [UserGoal "Say hello." "PNG"] ];
        stdin := [] |}).
Proof. vm_compute. reflexivity. Qed.

Lemma one_screenshot_per_turn_witness :
  one_observation calm (Agent.build_function_responses calm) [("click_at", ∅)]
    {| trace := [MouseClick 720 450; WaitForLoadState None 5000; Sleep 600];
       stdin := [] |}
  /\ one_observation calm (App.get_function_responses calm) [("click_at", ∅)]
       {| trace := [MouseClick 720 450; WaitForLoadState (Some "load") 8000; Sleep 1000];
          stdin := [] |}.
Proof.
  split.
  - refine (proj2 (proj1 (one_screenshot_per_turn calm [request "click_at" centre]
                            (fresh []) _ _) _)).
    vm_compute. reflexivity.
  - refine (proj2 (proj2 (one_screenshot_per_turn calm [request "click_at" centre]
                            (fresh []) _ _) _)).
    vm_compute. reflexivity.
Defined.

(** ** Names outside the vocabulary *)

Section Unrecognized.
Variable env : Env.

Lemma eqb_outside name known :
  name ∉ vocabulary -> known ∈ vocabulary -> String.eqb name known = false.
Proof.
  intros Hout Hin. apply String.eqb_neq. intros ->. exact (Hout Hin).
Qed.

(** In [agent.py] a name outside the vocabulary touches nothing and is
    marked ["unimplemented_action"]; the round then settles as after any
    action that did not raise. *)
Lemma agent_unrecognized name args extra w :
  name ∉ vocabulary ->
  Agent.operate env name args extra w
  = (Val (<["warning" := VStr "unimplemented_action"]> extra), w)
  /\ Agent.attempt env name args extra w
     = (Val (name, <["warning" := VStr "unimplemented_action"]> extra),
        log (Sleep 600) (log (WaitForLoadState None 5000) w)).
Proof.
  intros Hout.
  assert (Hop : Agent.operate env name args extra w
                = (Val (<["warning" := VStr "unimplemented_action"]> extra), w)).
  { unfold Agent.operate.
    rewrite !(eqb_outside name) by (exact Hout || (unfold vocabulary; set_solver)).
    reflexivity. }
  split; [exact Hop | apply agent_attempt_val; exact Hop].
Qed.

End Unrecognized.

(** ** The scenarios of the spec *)

(** One [navigate] request: one outcome without error, and the
    observation carries the address the page is then at. *)
Example navigate_scenario :
  let env := {| page_error := fun _ _ => None;
                page_png := fun _ => "PNG";
                page_url := fun _ => "https://example.com";
                model_reply := fun _ _ => Val [] |} in
  (rs <- Agent.exec_calls env
           [request "navigate" {[ "url" := VStr "https://example.com" ]}] ;;
   Agent.build_function_responses env rs) (fresh [])
  = (Val [ {| fr_name := "navigate";
              fr_response := {[ "url" := VStr "https://example.com" ]};
              fr_parts := [ {| mime_type := "image/png"; data := "PNG" |} ] |} ],
     {| trace := [ Goto (VStr "https://example.com");
                   WaitForLoadState None 5000; Sleep 600; Screenshot; ReadUrl ];
        stdin := [] |}).
Proof. vm_compute. reflexivity. Qed.

(** One [drag_and_drop] request: move to the source, press, move to the
    destination in ten steps, release; exactly one outcome. *)
Example drag_and_drop_scenario :
  Agent.exec_calls calm
    [request "drag_and_drop"
       {[ "x" := VInt 100; "y" := VInt 100;
          "destination_x" := VInt 900; "destination_y" := VInt 500 ]}] (fresh [])
  = (Val [("drag_and_drop", ∅)],
     {| trace := [ MouseMove 144 90 None; MouseDown; MouseMove 1296 450 (Some 10);
                   MouseUp; WaitForLoadState None 5000; Sleep 600 ];
        stdin := [] |}).
Proof. vm_compute. reflexivity. Qed.

(** * Further properties *)

(** ** The mapper outside [0, 1000] *)

Section Mirror.

Lemma round_aux_sign s m e l :
  binary_round_aux Py.prec Py.emax (negb s) m e l
  = SFopp (binary_round_aux Py.prec Py.emax s m e l).
Proof.
  unfold binary_round_aux.
  destruct (shr_fexp _ _ m e l) as [mrs' e'].
  destruct (shr_fexp _ _ _ e' loc_Exact) as [mrs'' e''].
  destruct (shr_m mrs''); try reflexivity.
  destruct (Z.leb e'' _); reflexivity.
Qed.

Lemma div_sign s m b :
  SFdiv Py.prec Py.emax (S754_finite (negb s) m 0) (S754_finite false b 0)
  = SFopp (SFdiv Py.prec Py.emax (S754_finite s m 0) (S754_finite false b 0)).
Proof.
  unfold SFdiv. destruct (SFdiv_core_binary _ _ _ _ _ _) as [[mz ez] lz].
  rewrite !xorb_false_r. apply round_aux_sign.
Qed.

Lemma mul_sign f g :
  SFmul Py.prec Py.emax (SFopp f) g = SFopp (SFmul Py.prec Py.emax f g).
Proof.
  destruct f as [s|s| |s m e], g as [t|t| |t n e']; cbn [SFopp SFmul];
    try reflexivity; try (destruct s, t; reflexivity).
  replace (xorb (negb s) t) with (negb (xorb s t)) by (destruct s, t; reflexivity).
  apply round_aux_sign.
Qed.

Lemma int_sign f : Py.int_of_float (SFopp f) = exc_map Z.opp (Py.int_of_float f).
Proof.
  destruct f as [s|s| |s m e]; cbn; try reflexivity.
  destruct s; cbn; f_equal; lia.
Qed.

Lemma truediv_sign n b :
  n <> 0 -> Py.int_truediv (- n) b = exc_map SFopp (Py.int_truediv n b).
Proof.
  intros Hn. unfold Py.int_truediv. destruct n as [|m|m]; [congruence| |].
  - change (- Z.pos m) with (Z.neg m). cbv iota.
    pose proof (div_sign false m b) as Hs. cbn [negb] in Hs. rewrite Hs.
    destruct (SFdiv _ _ (S754_finite false m 0) _); reflexivity.
  - change (- Z.neg m) with (Z.pos m). cbv iota.
    pose proof (div_sign true m b) as Hs. cbn [negb] in Hs. rewrite Hs.
    destruct (SFdiv _ _ (S754_finite true m 0) _); reflexivity.
Qed.

Lemma float_mul_sign q dim :
  Py.float_mul_int (SFopp q) dim = exc_map SFopp (Py.float_mul_int q dim).
Proof.
  unfold Py.float_mul_int. destruct (Py.float_of_int dim); [|reflexivity].
  cbn. rewrite mul_sign. reflexivity.
Qed.

Lemma scale_zero dim :
  Py.scale (VInt 0) dim = exc_map Z.opp (Py.scale (VInt 0) dim).
Proof.
  unfold Py.scale, Py.int_truediv, Py.float_mul_int.
  destruct (Py.float_of_int dim) as [g|msg]; [|reflexivity].
  destruct g as [t|t| |t k e']; reflexivity.
Qed.

Lemma scale_odd n dim :
  Py.scale (VInt (- n)) dim = exc_map Z.opp (Py.scale (VInt n) dim).
Proof.
  destruct (Z.eq_dec n 0) as [->|Hn]; [apply scale_zero|].
  unfold Py.scale. rewrite truediv_sign by exact Hn.
  destruct (Py.int_truediv n 1000) as [q|msg]; [|reflexivity].
  cbn [exc_map]. rewrite float_mul_sign.
  destruct (Py.float_mul_int q dim) as [p|msg]; [|reflexivity].
  cbn [exc_map]. apply int_sign.
Qed.

(** X1: no mapper clamps, and [int] truncates towards zero: for every
    integer [n] and every dimension, the image of [- n] is the opposite of
    the image of [n], an error for an error. *)
Theorem mapper_mirrors_negatives (n dim : Z) :
  denorm_x (VInt (- n)) = exc_map Z.opp (denorm_x (VInt n))
  /\ denorm_y (VInt (- n)) = exc_map Z.opp (denorm_y (VInt n))
  /\ denormalize_x (VInt (- n)) dim = exc_map Z.opp (denormalize_x (VInt n) dim)
  /\ denormalize_y (VInt (- n)) dim = exc_map Z.opp (denormalize_y (VInt n) dim).
Proof. repeat split; apply scale_odd. Qed.

(** The floor of the exact fraction would be one pixel further out. *)
Example mirror_is_not_floor :
  denorm_x (VInt (-5)) = Val (-7) /\ -5 * SCREEN_WIDTH / 1000 = -8.
Proof. split; vm_compute; reflexivity. Qed.

(** X2: for every viewport dimension from 1 to 4096, the two-argument
    mapper of [app.py] sends 0 to 0, 1000 to the dimension and 500 to half
    the dimension, rounded down. *)
Theorem mapper_fixed_points (dim : Z) :
  1 <= dim <= 4096 ->
  denormalize_x (VInt 0) dim = Val 0
  /\ denormalize_x (VInt 1000) dim = Val dim
  /\ denormalize_x (VInt 500) dim = Val (dim / 2)
  /\ denormalize_y (VInt 0) dim = Val 0
  /\ denormalize_y (VInt 1000) dim = Val dim
  /\ denormalize_y (VInt 500) dim = Val (dim / 2).
Proof.
  intros Hd.
  pose (P := fun d =>
    bool_decide (denormalize_x (VInt 0) d = Val 0)
    && bool_decide (denormalize_x (VInt 1000) d = Val d)
    && bool_decide (denormalize_x (VInt 500) d = Val (d / 2))).
  assert (Hc : check_upto (fun d => Z.eqb d 0 || P d) 4096 = true)
    by (vm_compute; reflexivity).
  pose proof (check_upto_sound _ 4096 Hc dim ltac:(lia)) as Hp.
  apply orb_true_iff in Hp as [Hz|Hp]; [lia|].
  unfold P in Hp. apply andb_true_iff in Hp as [Hp H500].
  apply andb_true_iff in Hp as [H0 H1000].
  apply bool_decide_eq_true in H0, H1000, H500.
  repeat split; assumption.
Qed.

Lemma mapper_fixed_points_witness :
  denormalize_x (VInt 1000) 1920 = Val 1920 /\ denormalize_y (VInt 500) 1080 = Val 540.
Proof.
  split.
  - exact (proj1 (proj2 (mapper_fixed_points 1920 ltac:(lia)))).
  - exact (proj2 (proj2 (proj2 (proj2 (proj2 (mapper_fixed_points 1080 ltac:(lia))))))).
Defined.

End Mirror.

(** ** The confirmation prompts *)

Section Prompts.

Lemma agent_ask_loop_clear junk line rest tr :
  Forall unclear junk ->
  says_yes line = true \/ says_no line = true ->
  Agent.ask_loop (junk ++ line :: rest) tr
  = (Val (says_yes line),
     {| trace := tr ++ replicate (S (length junk)) (Input Agent.prompt);
        stdin := rest |}).
Proof.
  intros Hjunk Hline. revert tr.
  induction Hjunk as [|j junk (_ & Hy & Hn) _ IH]; intros tr.
  - cbn [app Agent.ask_loop length replicate].
    fold (answer line). fold (says_yes line). fold (says_no line).
    destruct (says_yes line) eqn:Hy; [reflexivity|].
    destruct Hline as [Hline|Hline]; [discriminate|]. rewrite Hline. reflexivity.
  - cbn [app Agent.ask_loop length].
    fold (answer j). fold (says_yes j). fold (says_no j). rewrite Hy, Hn.
    rewrite IH. rewrite <- app_assoc. reflexivity.
Qed.

Lemma agent_ask_loop_eof junk tr :
  Forall unclear junk ->
  Agent.ask_loop junk tr
  = (Exn "EOF when reading a line",
     {| trace := tr ++ replicate (S (length junk)) (Input Agent.prompt);
        stdin := [] |}).
Proof.
  intros Hjunk. revert tr.
  induction Hjunk as [|j junk (_ & Hy & Hn) _ IH]; intros tr.
  - reflexivity.
  - cbn [Agent.ask_loop length].
    fold (answer j). fold (says_yes j). fold (says_no j). rewrite Hy, Hn.
    rewrite IH. rewrite <- app_assoc. reflexivity.
Qed.

(** X3: the prompt of [agent.py] asks again after every line (of ASCII
    text) that is neither a yes nor a no, and decides on the first line
    that is one: it allows on [y] or [yes], denies on [n], [no] or the
    empty line, whatever the case and the blanks around; it has then read
    these lines and no other.  When the input ends before such a line,
    [EOFError] is raised. *)
Theorem agent_prompt_until_clear d junk tr :
  Forall unclear junk ->
  (forall line rest,
     says_yes line = true \/ says_no line = true ->
     Agent.ask_confirmation (VDict d) {| trace := tr; stdin := junk ++ line :: rest |}
     = (Val (says_yes line),
        {| trace := tr ++ replicate (S (length junk)) (Input Agent.prompt);
           stdin := rest |}))
  /\ Agent.ask_confirmation (VDict d) {| trace := tr; stdin := junk |}
     = (Exn "EOF when reading a line",
        {| trace := tr ++ replicate (S (length junk)) (Input Agent.prompt);
           stdin := [] |}).
Proof.
  intros Hjunk. split.
  - intros line rest Hline. apply agent_ask_loop_clear; assumption.
  - apply agent_ask_loop_eof; assumption.
Qed.

Lemma yes_starts_with_y line :
  says_yes line = true -> Py.startswith (answer line) "y" = true.
Proof.
  unfold says_yes. intros H. apply bool_decide_eq_true in H.
  apply elem_of_cons in H as [->|H]; [reflexivity|].
  apply elem_of_cons in H as [->|H]; [reflexivity|].
  apply elem_of_nil in H. destruct H.
Qed.

Lemma no_starts_otherwise line :
  says_no line = true -> Py.startswith (answer line) "y" = false.
Proof.
  unfold says_no. intros H. apply bool_decide_eq_true in H.
  apply elem_of_cons in H as [->|H]; [reflexivity|].
  apply elem_of_cons in H as [->|H]; [reflexivity|].
  apply elem_of_cons in H as [->|H]; [reflexivity|].
  apply elem_of_nil in H. destruct H.
Qed.

Lemma yes_or_no line :
  says_yes line = true \/ says_no line = true ->
  Py.startswith (answer line) "y" = says_yes line.
Proof.
  destruct (says_yes line) eqn:Hy.
  - intros _. apply yes_starts_with_y. exact Hy.
  - intros [H|H]; [discriminate | apply no_starts_otherwise; exact H].
Qed.

(** X4: on a line that [agent.py] takes for an answer, the three scripts
    decide alike and read that one line: [job_form.py] allows exactly when
    [agent.py] does, and [app.py], given an explanation to print, continues
    exactly then. *)
Theorem prompts_agree_on_clear_answers d line rest tr :
  says_yes line = true \/ says_no line = true ->
  let w := {| trace := tr; stdin := line :: rest |} in
  Agent.ask_confirmation (VDict d) w
  = (Val (says_yes line), {| trace := tr ++ [Input Agent.prompt]; stdin := rest |})
  /\ JobForm.ask_confirmation (VDict d) w
     = (Val (says_yes line), {| trace := tr ++ [Input "Proceed? [y/N]: "]; stdin := rest |})
  /\ (is_Some (d !! "explanation") ->
      App.get_safety_confirmation (VDict d) w
      = (Val (if says_yes line then "CONTINUE" else "TERMINATE"),
         {| trace := tr ++ [Input "Proceed with this action? [Y/N]: "]; stdin := rest |})).
Proof.
  intros Hline w. split; [|split].
  - exact (agent_ask_loop_clear [] line rest tr (Forall_nil_2 _) Hline).
  - cbn. unfold bind, input, ret. cbn.
    fold (answer line). rewrite (yes_or_no line Hline). reflexivity.
  - intros [e He]. cbn. rewrite He. unfold bind, input, ret. cbn.
    fold (answer line). rewrite (yes_or_no line Hline).
    destruct (says_yes line); reflexivity.
Qed.

End Prompts.

Lemma agent_prompt_until_clear_witness :
  Agent.ask_confirmation (VDict ∅) (fresh ["maybe"; "yeah"; " YES "; "n"])
  = (Val true,
     {| trace := replicate 3 (Input Agent.prompt); stdin := ["n"] |}).
Proof.
  refine (proj1 (agent_prompt_until_clear ∅ ["maybe"; "yeah"] [] _) " YES " ["n"] _).
  - repeat constructor.
  - left. reflexivity.
Defined.

Lemma prompts_agree_on_clear_answers_witness :
  Agent.ask_confirmation (VDict ∅) (fresh [EmptyString])
  = (Val false, {| trace := [Input Agent.prompt]; stdin := [] |})
  /\ JobForm.ask_confirmation (VDict ∅) (fresh [EmptyString])
     = (Val false, {| trace := [Input "Proceed? [y/N]: "]; stdin := [] |}).
Proof.
  pose proof (prompts_agree_on_clear_answers ∅ EmptyString [] []
                (or_intror eq_refl)) as (Ha & Hj & _).
  split; [exact Ha | exact Hj].
Defined.

(** Where they differ: [agent.py] asks again after "yeah", the other two
    take it for a yes. *)
Example yeah :
  Agent.ask_confirmation (VDict ∅) (fresh ["yeah"; "no"])
  = (Val false, {| trace := replicate 2 (Input Agent.prompt); stdin := [] |})
  /\ JobForm.ask_confirmation (VDict ∅) (fresh ["yeah"; "no"])
     = (Val true, {| trace := [Input "Proceed? [y/N]: "]; stdin := ["no"] |}).
Proof. split; vm_compute; reflexivity. Qed.

(** ** What never reaches the browser, what never reaches the operator *)

Section Stdin.
Context {A B : Type}.

Lemma keeps_ret (a : A) : keeps_stdin (ret a).
Proof. intros w. reflexivity. Qed.

Lemma keeps_raise msg : keeps_stdin (@raise A msg).
Proof. intros w. reflexivity. Qed.

Lemma keeps_lift (r : Exc A) : keeps_stdin (lift r).
Proof. intros w. reflexivity. Qed.

Lemma keeps_bind (m : M A) (k : A -> M B) :
  keeps_stdin m -> (forall a, keeps_stdin (k a)) -> keeps_stdin (bind m k).
Proof.
  intros Hm Hk w. unfold bind. specialize (Hm w).
  destruct (m w) as [[a|msg] w1]; cbn in *; [|exact Hm].
  rewrite (Hk a w1). exact Hm.
Qed.

Lemma keeps_try (m : M A) (h : string -> M A) :
  keeps_stdin m -> (forall msg, keeps_stdin (h msg)) -> keeps_stdin (try_except m h).
Proof.
  intros Hm Hh w. unfold try_except. specialize (Hm w).
  destruct (m w) as [[a|msg] w1]; cbn in *; [exact Hm|].
  rewrite (Hh msg w1). exact Hm.
Qed.
End Stdin.

Lemma keeps_getitem d key : keeps_stdin (getitem d key).
Proof. unfold getitem. destruct (d !! key); [apply keeps_ret | apply keeps_raise]. Qed.

Lemma keeps_sleep ms : keeps_stdin (sleep ms).
Proof. intros w. reflexivity. Qed.

Lemma keeps_page env e : keeps_stdin (page env e).
Proof. intros w. unfold page. destruct (page_error env (trace w) e); reflexivity. Qed.

Ltac keeps_auto :=
  repeat first
    [ apply keeps_ret
    | apply keeps_raise
    | apply keeps_lift
    | apply keeps_getitem
    | apply keeps_sleep
    | apply keeps_page
    | apply keeps_bind; [| intros ?]
    | apply keeps_try; [| intros ?]
    | match goal with
      | |- keeps_stdin (if ?b then _ else _) => destruct b
      | |- keeps_stdin (match ?x with _ => _ end) => destruct x
      end ].

Section Ungated.
Variable env : Env.

Lemma agent_attempt_browser name args extra :
  emits browser_event (Agent.attempt env name args extra)
  /\ keeps_stdin (Agent.attempt env name args extra).
Proof.
  unfold Agent.attempt, Agent.settle, Agent.operate, Agent.point.
  split; [emits_auto | keeps_auto].
Qed.

Lemma job_form_attempt_browser name args meta :
  emits browser_event (JobForm.attempt env name args meta)
  /\ keeps_stdin (JobForm.attempt env name args meta).
Proof.
  unfold JobForm.attempt, JobForm.settle, JobForm.operate.
  split; [emits_auto | keeps_auto].
Qed.

Lemma app_perform_browser fname args extra sw sh :
  emits browser_event (App.perform env fname args extra sw sh)
  /\ keeps_stdin (App.perform env fname args extra sw sh).
Proof.
  unfold App.perform, App.operate.
  split; [emits_auto | keeps_auto].
Qed.

Lemma ungated_lookup fc :
  ~ gated fc -> default ∅ (fc_args fc) !! "safety_decision" = None.
Proof.
  unfold gated. intros H.
  destruct (default ∅ (fc_args fc) !! "safety_decision"); [destruct H; eauto | reflexivity].
Qed.

Lemma agent_ungated_loop fcs results :
  Forall (fun fc => ~ gated fc) fcs ->
  emits browser_event (Agent.exec_loop env fcs results)
  /\ keeps_stdin (Agent.exec_loop env fcs results).
Proof.
  intros Hfree. revert results.
  induction Hfree as [|fc rest Hfc _ IH]; intros results; cbn [Agent.exec_loop].
  - split; [apply emits_ret | apply keeps_ret].
  - unfold Agent.exec_call. rewrite (ungated_lookup fc Hfc).
    destruct (agent_attempt_browser (fc_name fc) (default ∅ (fc_args fc)) ∅) as [He Hk].
    split.
    + apply emits_bind; [apply emits_bind; [exact He | intros ?; apply emits_ret]|].
      intros [r|r]; [apply IH | apply emits_ret].
    + apply keeps_bind; [apply keeps_bind; [exact Hk | intros ?; apply keeps_ret]|].
      intros [r|r]; [apply IH | apply keeps_ret].
Qed.

Lemma job_form_ungated_loop fcs results :
  Forall (fun fc => ~ gated fc) fcs ->
  emits browser_event (JobForm.exec_loop env fcs results)
  /\ keeps_stdin (JobForm.exec_loop env fcs results).
Proof.
  intros Hfree. revert results.
  induction Hfree as [|fc rest Hfc _ IH]; intros results; cbn [JobForm.exec_loop].
  - split; [apply emits_ret | apply keeps_ret].
  - unfold JobForm.exec_call. rewrite (ungated_lookup fc Hfc).
    destruct (job_form_attempt_browser (fc_name fc) (default ∅ (fc_args fc)) ∅) as [He Hk].
    split.
    + apply emits_bind; [apply emits_bind; [exact He | intros ?; apply emits_ret]|].
      intros [r|r]; [apply IH | apply emits_ret].
    + apply keeps_bind; [apply keeps_bind; [exact Hk | intros ?; apply keeps_ret]|].
      intros [r|r]; [apply IH | apply keeps_ret].
Qed.

Lemma app_ungated_part part sw sh :
  (forall fc, function_call part = Some fc -> ~ gated fc) ->
  emits browser_event (App.exec_part env part sw sh)
  /\ keeps_stdin (App.exec_part env part sw sh).
Proof.
  intros Hfree. unfold App.exec_part.
  destruct (function_call part) as [fc|]; [| split; [apply emits_ret | apply keeps_ret]].
  pose proof (ungated_lookup fc (Hfree fc eq_refl)) as Hsd.
  destruct (fc_args fc) as [args|]; [| split; [apply emits_raise | apply keeps_raise]].
  change (args !! "safety_decision" = None) in Hsd. rewrite Hsd.
  destruct (app_perform_browser (fc_name fc) args ∅ sw sh) as [He Hk].
  split.
  - apply emits_bind; [exact He | intros ?; apply emits_ret].
  - apply keeps_bind; [exact Hk | intros ?; apply keeps_ret].
Qed.

Lemma function_calls_cons part rest :
  function_calls (part :: rest)
  = match function_call part with
    | Some fc => fc :: function_calls rest
    | None => function_calls rest
    end.
Proof. reflexivity. Qed.

Lemma app_ungated_loop parts sw sh results :
  Forall (fun fc => ~ gated fc) (function_calls parts) ->
  emits browser_event (App.exec_loop env parts sw sh results)
  /\ keeps_stdin (App.exec_loop env parts sw sh results).
Proof.
  revert results. induction parts as [|part rest IH]; intros results Hfree;
    cbn [App.exec_loop].
  - split; [apply emits_ret | apply keeps_ret].
  - assert (Hpart : forall fc, function_call part = Some fc -> ~ gated fc).
    { intros fc Hfc. rewrite function_calls_cons, Hfc in Hfree.
      apply Forall_cons in Hfree as [H _]. exact H. }
    assert (Hrest : Forall (fun fc => ~ gated fc) (function_calls rest)).
    { rewrite function_calls_cons in Hfree.
      destruct (function_call part); [apply Forall_cons in Hfree as [_ H]|]; assumption. }
    destruct (app_ungated_part part sw sh Hpart) as [He Hk].
    split.
    + apply emits_bind; [exact He|].
      intros [| |r]; [apply IH | apply emits_ret | apply IH]; exact Hrest.
    + apply keeps_bind; [exact Hk|].
      intros [| |r]; [apply IH | apply keeps_ret | apply IH]; exact Hrest.
Qed.

(** X5: the operator is asked nothing unless a request carries a safety
    decision: when none does, the executors of the three scripts read no
    line, prompt for none, and add to the trace only events of the page,
    the mouse, the keyboard and the clock. *)
Theorem no_gate_no_prompt parts w :
  Forall (fun fc => ~ gated fc) (function_calls parts) ->
  let agent := Agent.exec_calls env parts w in
  let job_form := JobForm.exec_calls env parts w in
  let app := App.execute_function_calls env parts SCREEN_WIDTH SCREEN_HEIGHT w in
  (stdin agent.2 = stdin w
   /\ exists evs, trace agent.2 = trace w ++ evs /\ Forall browser_event evs)
  /\ (stdin job_form.2 = stdin w
      /\ exists evs, trace job_form.2 = trace w ++ evs /\ Forall browser_event evs)
  /\ (stdin app.2 = stdin w
      /\ exists evs, trace app.2 = trace w ++ evs /\ Forall browser_event evs).
Proof.
  intros Hfree. cbv zeta.
  destruct (agent_ungated_loop (function_calls parts) [] Hfree) as [Ha Ha'].
  destruct (job_form_ungated_loop (function_calls parts) [] Hfree) as [Hj Hj'].
  destruct (app_ungated_loop parts SCREEN_WIDTH SCREEN_HEIGHT [] Hfree) as [Hp Hp'].
  repeat split; first [apply Ha' | apply Hj' | apply Hp' | apply Ha | apply Hj | apply Hp].
Qed.

End Ungated.

Lemma no_gate_no_prompt_witness :
  stdin (Agent.exec_calls calm [request "click_at" centre] (fresh ["y"])).2 = ["y"].
Proof.
  refine (proj1 (proj1 (no_gate_no_prompt calm [request "click_at" centre]
                          (fresh ["y"]) _))).
  repeat constructor. unfold gated. cbn. intros [v Hv]. vm_compute in Hv. discriminate Hv.
Defined.

(** ** One outcome for each request *)

Section Answers.
Variable env : Env.

Lemma job_form_attempt_total name args meta w :
  payload_keys (name, meta) ->
  exists p w1, JobForm.attempt env name args meta w = (Val (name, p), w1)
               /\ payload_keys (name, p).
Proof.
  intros Hk.
  destruct (JobForm.operate env name args meta w) as [[meta'|msg] w1] eqn:Hop.
  - rewrite (job_form_attempt_val _ _ _ _ _ _ _ Hop). eexists _, _. split; [reflexivity|].
    destruct (job_form_operate_extra _ _ _ _ _ _ _ Hop) as [->| ->];
      [exact Hk | apply keys_warning; exact Hk].
  - rewrite (job_form_attempt_exn _ _ _ _ _ _ _ Hop). eexists _, _. split; [reflexivity|].
    apply keys_error_union; exact Hk.
Qed.

Lemma job_form_exec_call_cases fc w :
  match JobForm.exec_call env fc w with
  | (Val (Appended r), _) => r.1 = fc_name fc /\ payload_keys r
  | (Val (Returned r), _) => r = (fc_name fc, user_denied) /\ gated fc
  | (Exn _, _) => gated fc
  end.
Proof.
  unfold JobForm.exec_call, gated.
  destruct (default ∅ (fc_args fc) !! "safety_decision") as [sd|] eqn:Hsd.
  - unfold bind at 1.
    destruct (JobForm.ask_confirmation sd w) as [[[|]|msg] w1]; simpl; [| eauto..].
    destruct (job_form_attempt_total (fc_name fc) (default ∅ (fc_args fc))
                {["safety_acknowledgement" := VBool true]} w1 (keys_ack _))
      as (p & w2 & Hat & Hk).
    rewrite (bind_val _ _ _ _ _ Hat). simpl. auto.
  - destruct (job_form_attempt_total (fc_name fc) (default ∅ (fc_args fc)) ∅ w
                (keys_empty _)) as (p & w2 & Hat & Hk).
    rewrite (bind_val _ _ _ _ _ Hat). simpl. auto.
Qed.

Lemma job_form_exec_loop_answers fcs results w rs w' :
  JobForm.exec_loop env fcs results w = (Val rs, w') ->
  exists new, rs = results ++ new /\ Forall payload_keys new /\ answers fcs new.
Proof.
  revert results w. induction fcs as [|fc rest IH]; intros results w; simpl.
  - intros [= <- <-]. exists []. rewrite app_nil_r.
    split; [reflexivity|]. split; [constructor | left; reflexivity].
  - intros Hrun. apply bind_inv in Hrun as (round & w1 & Hcall & Hrun).
    pose proof (job_form_exec_call_cases fc w) as Hcases. rewrite Hcall in Hcases.
    destruct round as [r|r].
    + destruct Hcases as [Hname Hkeys].
      apply IH in Hrun as (new & -> & Hall & Hans).
      exists (r :: new). rewrite <- app_assoc. split; [reflexivity|].
      split; [constructor; assumption|].
      destruct Hans as [Hnames | (k & fc' & Hk & Hg & Hnames & Hlast)].
      * left. rewrite !fmap_cons, Hname, Hnames. reflexivity.
      * right. exists (S k), fc'. rewrite fmap_cons, Hname, Hnames.
        repeat split; try assumption.
        destruct new; [discriminate Hlast | exact Hlast].
    + destruct Hcases as [-> Hg]. injection Hrun as <- <-.
      exists [(fc_name fc, user_denied)]. split; [reflexivity|].
      split; [constructor; [apply keys_denied | constructor]|].
      right. exists 0%nat, fc. repeat split. exact Hg.
Qed.

Lemma job_form_exec_loop_raises fcs results w msg w' :
  JobForm.exec_loop env fcs results w = (Exn msg, w') -> Exists gated fcs.
Proof.
  revert results w. induction fcs as [|fc rest IH]; intros results w; simpl.
  - discriminate.
  - unfold bind. pose proof (job_form_exec_call_cases fc w) as Hcases.
    destruct (JobForm.exec_call env fc w) as [[[r|r]|msg'] w1].
    + intros Hrun. right. eapply IH. exact Hrun.
    + discriminate.
    + intros _. left. exact Hcases.
Qed.

(** X6: whatever the browser and the operator do, the executor of
    [agent.py] and that of [job_form.py] either return outcomes that answer
    the requests one for one and in order, up to and including the first
    denied one, or raise, and then a request carried a safety decision: a
    turn without safety decision always gets its outcomes. *)
Theorem outcomes_follow_requests parts w :
  match Agent.exec_calls env parts w with
  | (Val rs, _) => answers (function_calls parts) rs
  | (Exn _, _) => Exists gated (function_calls parts)
  end
  /\ match JobForm.exec_calls env parts w with
     | (Val rs, _) => answers (function_calls parts) rs
     | (Exn _, _) => Exists gated (function_calls parts)
     end.
Proof.
  split.
  - destruct (Agent.exec_calls env parts w) as [[rs|msg] w'] eqn:Hrun.
    + apply agent_exec_loop_answers in Hrun as (new & -> & _ & Hans). exact Hans.
    + eapply agent_exec_loop_raises. exact Hrun.
  - destruct (JobForm.exec_calls env parts w) as [[rs|msg] w'] eqn:Hrun.
    + apply job_form_exec_loop_answers in Hrun as (new & -> & _ & Hans). exact Hans.
    + eapply job_form_exec_loop_raises. exact Hrun.
Qed.

Lemma any_call_nonempty parts :
  any_function_call parts = true -> function_calls parts <> [].
Proof.
  induction parts as [|part rest IH]; [discriminate|].
  rewrite function_calls_cons. unfold any_function_call. cbn [existsb].
  destruct (function_call part) as [fc|]; [discriminate|].
  intros H. apply IH. apply orb_true_iff in H as [H|H]; [|exact H].
  apply bool_decide_eq_true in H. destruct H as [? H]. discriminate H.
Qed.

Lemma answers_nonempty fcs rs : fcs <> [] -> answers fcs rs -> rs <> [].
Proof.
  intros Hne [Hnames | (k & fc & Hk & _ & Hnames & _)] ->.
  - destruct fcs; [congruence | discriminate Hnames].
  - destruct fcs; [discriminate Hk | discriminate Hnames].
Qed.

(** X7: the test by which the turn loop decides to run a turn and the
    filter by which the executor picks the requests agree: whenever the
    test holds and the executor of [agent.py] or [job_form.py] returns,
    there is at least one outcome, so the observation appended to the
    history is never empty. *)
Theorem observation_is_never_empty parts w rs w1 frs w2 :
  any_function_call parts = true ->
  (Agent.exec_calls env parts w = (Val rs, w1) ->
   Agent.build_function_responses env rs w1 = (Val frs, w2) -> frs <> [])
  /\ (JobForm.exec_calls env parts w = (Val rs, w1) ->
      JobForm.build_function_responses env rs w1 = (Val frs, w2) -> frs <> []).
Proof.
  intros Hany. pose proof (any_call_nonempty parts Hany) as Hne.
  assert (Hbuild : rs <> [] ->
                   Agent.build_function_responses env rs w1 = (Val frs, w2) -> frs <> []).
  { intros Hrs Hb ->. unfold Agent.build_function_responses, bind, screenshot, url, ret in Hb.
    destruct (page_error env (trace w1) Screenshot); [discriminate|].
    injection Hb as Hb _. destruct rs; [congruence | discriminate Hb]. }
  split; intros Hrun; apply Hbuild.
  - apply agent_exec_loop_answers in Hrun as (new & -> & _ & Hans).
    exact (answers_nonempty _ _ Hne Hans).
  - apply job_form_exec_loop_answers in Hrun as (new & -> & _ & Hans).
    exact (answers_nonempty _ _ Hne Hans).
Qed.

End Answers.

Lemma observation_is_never_empty_witness :
  exists frs w2,
    Agent.build_function_responses calm [("click_at", user_denied)]
      {| trace := [Input Agent.prompt]; stdin := [] |} = (Val frs, w2)
    /\ frs <> [].
Proof.
  eexists _, _. split; [reflexivity|].
  refine (proj1 (observation_is_never_empty calm [request "click_at" (risky centre)]
                   (fresh ["n"]) _ _ _ _ _) _ _); vm_compute; reflexivity.
Defined.

(** [app.py] does append an empty observation when the first request is
    denied. *)
Example app_empty_observation :
  (rs <- App.execute_function_calls calm [request "click_at" (risky centre)]
           SCREEN_WIDTH SCREEN_HEIGHT ;;
   App.get_function_responses calm rs) (fresh ["n"])
  = (Val [],
     {| trace := [Input "Proceed with this action? [Y/N]: "; Screenshot; ReadUrl];
        stdin := [] |}).
Proof. vm_compute. reflexivity. Qed.

(** ** The shape of the payloads *)

Section Shapes.
Variable env : Env.

Lemma shape_forms name (extra p : gmap string value) :
  extra = ∅ \/ extra = acknowledged ->
  (p = extra
   \/ (exists m, (m = "unimplemented_action" \/ m = "unimplemented")
                 /\ p = <["warning" := VStr m]> extra)
   \/ (exists msg, p = extra ∪ {["error" := VStr msg]})
   \/ (exists msg, p = <["error" := VStr msg]> extra)) ->
  payload_shape (name, p).
Proof.
  unfold payload_shape, acknowledged. cbn [snd].
  intros [-> | ->] [-> | [(m & Hm & ->) | [(msg & ->) | (msg & ->)]]].
  all: repeat split; try intros v.
  all: rewrite ?lookup_union, ?lookup_insert, ?lookup_singleton, ?lookup_empty.
  all: repeat case_decide; try discriminate; cbn.
  all: try (intros [= <-]); eauto.
  all: try (destruct Hm as [-> | ->]; eauto).
Qed.

Lemma shape_denied name : payload_shape (name, user_denied).
Proof.
  apply (shape_forms name ∅); [auto|]. right. right. right.
  exists "user_denied". unfold user_denied. rewrite insert_empty. reflexivity.
Qed.

Lemma agent_attempt_shape name args extra w r w' :
  extra = ∅ \/ extra = acknowledged ->
  Agent.attempt env name args extra w = (Val r, w') -> payload_shape r.
Proof.
  intros Hextra Hat.
  destruct (Agent.operate env name args extra w) as [[extra'|msg] w1] eqn:Hop.
  - rewrite (agent_attempt_val _ _ _ _ _ _ _ Hop) in Hat. injection Hat as <- _.
    apply (shape_forms name extra); [exact Hextra|].
    destruct (agent_operate_extra _ _ _ _ _ _ _ Hop) as [->| ->]; [auto|].
    right. left. eauto.
  - rewrite (agent_attempt_exn _ _ _ _ _ _ _ Hop) in Hat. injection Hat as <- _.
    apply (shape_forms name extra); [exact Hextra|]. right. right. left. eauto.
Qed.

Lemma job_form_attempt_shape name args meta w r w' :
  meta = ∅ \/ meta = acknowledged ->
  JobForm.attempt env name args meta w = (Val r, w') -> payload_shape r.
Proof.
  intros Hmeta Hat.
  destruct (JobForm.operate env name args meta w) as [[meta'|msg] w1] eqn:Hop.
  - rewrite (job_form_attempt_val _ _ _ _ _ _ _ Hop) in Hat. injection Hat as <- _.
    apply (shape_forms name meta); [exact Hmeta|].
    destruct (job_form_operate_extra _ _ _ _ _ _ _ Hop) as [->| ->]; [auto|].
    right. left. eauto.
  - rewrite (job_form_attempt_exn _ _ _ _ _ _ _ Hop) in Hat. injection Hat as <- _.
    apply (shape_forms name meta); [exact Hmeta|]. right. right. left. eauto.
Qed.

Lemma agent_exec_call_shape fc w round w' :
  Agent.exec_call env fc w = (Val round, w') ->
  match round with Appended r | Returned r => payload_shape r end.
Proof.
  unfold Agent.exec_call.
  destruct (default ∅ (fc_args fc) !! "safety_decision") as [sd|].
  - intros Hrun. apply bind_inv in Hrun as ([|] & w1 & _ & Hrun); cbn [negb] in Hrun.
    + apply bind_inv in Hrun as (r & w2 & Hat & [= <- _]).
      eapply agent_attempt_shape; [|exact Hat]. right. reflexivity.
    + injection Hrun as <- _. apply shape_denied.
  - intros Hrun. apply bind_inv in Hrun as (r & w2 & Hat & [= <- _]).
    eapply agent_attempt_shape; [|exact Hat]. left. reflexivity.
Qed.

Lemma job_form_exec_call_shape fc w round w' :
  JobForm.exec_call env fc w = (Val round, w') ->
  match round with Appended r | Returned r => payload_shape r end.
Proof.
  unfold JobForm.exec_call.
  destruct (default ∅ (fc_args fc) !! "safety_decision") as [sd|].
  - intros Hrun. apply bind_inv in Hrun as ([|] & w1 & _ & Hrun); cbn [negb] in Hrun.
    + apply bind_inv in Hrun as (r & w2 & Hat & [= <- _]).
      eapply job_form_attempt_shape; [|exact Hat]. right. reflexivity.
    + injection Hrun as <- _. apply shape_denied.
  - intros Hrun. apply bind_inv in Hrun as (r & w2 & Hat & [= <- _]).
    eapply job_form_attempt_shape; [|exact Hat]. left. reflexivity.
Qed.

Lemma agent_exec_loop_shape fcs results w rs w' :
  Forall payload_shape results ->
  Agent.exec_loop env fcs results w = (Val rs, w') -> Forall payload_shape rs.
Proof.
  revert results w. induction fcs as [|fc rest IH]; intros results w Hres; simpl.
  - intros [= <- _]. exact Hres.
  - intros Hrun. apply bind_inv in Hrun as (round & w1 & Hcall & Hrun).
    apply agent_exec_call_shape in Hcall.
    assert (Hnew : forall r, payload_shape r -> Forall payload_shape (results ++ [r]))
      by (intros r Hr; apply Forall_app; split; [exact Hres | constructor; [exact Hr | constructor]]).
    destruct round as [r|r].
    + exact (IH _ _ (Hnew r Hcall) Hrun).
    + injection Hrun as <- _. exact (Hnew r Hcall).
Qed.

Lemma job_form_exec_loop_shape fcs results w rs w' :
  Forall payload_shape results ->
  JobForm.exec_loop env fcs results w = (Val rs, w') -> Forall payload_shape rs.
Proof.
  revert results w. induction fcs as [|fc rest IH]; intros results w Hres; simpl.
  - intros [= <- _]. exact Hres.
  - intros Hrun. apply bind_inv in Hrun as (round & w1 & Hcall & Hrun).
    apply job_form_exec_call_shape in Hcall.
    assert (Hnew : forall r, payload_shape r -> Forall payload_shape (results ++ [r]))
      by (intros r Hr; apply Forall_app; split; [exact Hres | constructor; [exact Hr | constructor]]).
    destruct round as [r|r].
    + exact (IH _ _ (Hnew r Hcall) Hrun).
    + injection Hrun as <- _. exact (Hnew r Hcall).
Qed.

Lemma app_perform_shape fname args extra sw sh w r w' :
  extra = ∅ \/ extra = acknowledged ->
  App.perform env fname args extra sw sh w = (Val r, w') -> app_shape r.
Proof.
  intros Hextra Hrun. unfold App.perform in Hrun.
  apply bind_inv in Hrun as (extra' & w1 & Htry & Hrun).
  apply bind_inv in Hrun as (? & w2 & _ & Hrun).
  apply bind_inv in Hrun as (? & w3 & _ & Hrun).
  injection Hrun as <- _.
  assert (Hforms : extra' = extra \/ exists msg, extra' = <["error" := VStr msg]> extra).
  { unfold try_except in Htry.
    destruct (bind _ _ w) as [[e|msg] w0] eqn:Hop in Htry.
    - apply bind_inv in Hop as (? & ? & _ & [= <- _]). injection Htry as <- _. auto.
    - injection Htry as <- _. eauto. }
  split.
  - apply (shape_forms fname extra); [exact Hextra|].
    destruct Hforms as [->|[msg ->]]; [auto | right; right; right; eauto].
  - cbn [snd]. unfold acknowledged in Hextra.
    destruct Hextra as [-> | ->], Hforms as [->|[msg ->]];
      rewrite ?lookup_insert, ?lookup_singleton, ?lookup_empty;
      repeat case_decide; try discriminate; reflexivity.
Qed.

Lemma app_exec_loop_shape parts sw sh results w rs w' :
  Forall app_shape results ->
  App.exec_loop env parts sw sh results w = (Val rs, w') -> Forall app_shape rs.
Proof.
  revert results w. induction parts as [|part rest IH]; intros results w Hres; simpl.
  - intros [= <- _]. exact Hres.
  - intros Hrun. apply bind_inv in Hrun as (pass & w1 & Hpart & Hrun).
    destruct pass as [| |r].
    + exact (IH _ _ Hres Hrun).
    + injection Hrun as <- _. exact Hres.
    + refine (IH _ _ _ Hrun). apply Forall_app. split; [exact Hres|].
      constructor; [|constructor]. unfold App.exec_part in Hpart.
      destruct (function_call part) as [fc|]; [|discriminate Hpart].
      destruct (fc_args fc) as [args|]; [|discriminate Hpart].
      destruct (args !! "safety_decision").
      * apply bind_inv in Hpart as (decision & w2 & _ & Hpart).
        destruct (String.eqb decision "TERMINATE"); [discriminate Hpart|].
        apply bind_inv in Hpart as (r' & w3 & Hperf & [= <- _]).
        eapply app_perform_shape; [|exact Hperf]. right. reflexivity.
      * apply bind_inv in Hpart as (r' & w3 & Hperf & [= <- _]).
        eapply app_perform_shape; [|exact Hperf]. left. reflexivity.
Qed.

(** X8: in every outcome any executor returns, an error and a warning
    exclude each other, the acknowledgement is [True] when present, the
    error is a string and the warning one of the two markers; [app.py]
    writes no warning at all, so that an action it does not know looks
    like one that went well. *)
Theorem payloads_are_well_shaped parts w :
  match Agent.exec_calls env parts w with
  | (Val rs, _) => Forall payload_shape rs
  | (Exn _, _) => True
  end
  /\ match JobForm.exec_calls env parts w with
     | (Val rs, _) => Forall payload_shape rs
     | (Exn _, _) => True
     end
  /\ match App.execute_function_calls env parts SCREEN_WIDTH SCREEN_HEIGHT w with
     | (Val rs, _) => Forall (fun r => payload_shape r /\ r.2 !! "warning" = None) rs
     | (Exn _, _) => True
     end.
Proof.
  split; [|split].
  - destruct (Agent.exec_calls env parts w) as [[rs|msg] w'] eqn:Hrun; [|exact I].
    exact (agent_exec_loop_shape _ _ _ _ _ (Forall_nil_2 _) Hrun).
  - destruct (JobForm.exec_calls env parts w) as [[rs|msg] w'] eqn:Hrun; [|exact I].
    exact (job_form_exec_loop_shape _ _ _ _ _ (Forall_nil_2 _) Hrun).
  - destruct (App.execute_function_calls env parts _ _ w) as [[rs|msg] w'] eqn:Hrun;
      [|exact I].
    exact (app_exec_loop_shape _ _ _ _ _ _ _ (Forall_nil_2 _) Hrun).
Qed.

End Shapes.

(** An action [app.py] does not know yields the payload of a success. *)
Example app_unknown_action :
  App.execute_function_calls calm [request "go_back" ∅] SCREEN_WIDTH SCREEN_HEIGHT (fresh [])
  = (Val [("go_back", ∅)],
     {| trace := [WaitForLoadState (Some "load") 8000; Sleep 1000]; stdin := [] |}).
Proof. vm_compute. reflexivity. Qed.

(** ** [app.py] on a page that loads *)

Section AppLoads.
Variable env : Env.
Hypothesis env_loads : loads env.

Lemma app_perform_total fname args extra sw sh w :
  exists p w', App.perform env fname args extra sw sh w = (Val (fname, p), w').
Proof.
  unfold App.perform. unfold bind at 1.
  destruct (try_except _ _ w) as [[extra'|msg] w1] eqn:Htry.
  - unfold bind at 1, page. rewrite env_loads.
    unfold bind, sleep, ret. eauto.
  - unfold try_except in Htry.
    destruct (bind _ _ w) as [[e|msg'] w0]; discriminate Htry.
Qed.

Lemma app_exec_loop_total parts sw sh results w :
  Forall (fun fc => ~ gated fc /\ has_args fc) (function_calls parts) ->
  exists new w',
    App.exec_loop env parts sw sh results w = (Val (results ++ new), w')
    /\ new.*1 = fc_name <$> function_calls parts.
Proof.
  revert results w. induction parts as [|part rest IH]; intros results w Hok;
    cbn [App.exec_loop].
  - exists [], w. rewrite app_nil_r. split; reflexivity.
  - rewrite function_calls_cons in *. unfold App.exec_part.
    destruct (function_call part) as [fc|].
    + apply Forall_cons in Hok as [[Hfree [args Hargs]] Hrest].
      apply ungated_lookup in Hfree. rewrite Hargs in Hfree |- *.
      change (args !! "safety_decision" = None) in Hfree. rewrite Hfree.
      destruct (app_perform_total (fc_name fc) args ∅ sw sh w) as (p & w1 & Hperf).
      unfold bind at 1. rewrite (bind_val _ _ _ _ _ Hperf). cbn [ret].
      destruct (IH (results ++ [(fc_name fc, p)]) w1 Hrest) as (new & w' & Hrun & Hnames).
      exists ((fc_name fc, p) :: new), w'. rewrite Hrun, <- app_assoc.
      split; [reflexivity|]. rewrite !fmap_cons, Hnames. reflexivity.
    + unfold bind at 1. cbn [ret]. apply IH. exact Hok.
Qed.

(** X9: when no wait for the load state fails and every request comes
    with its arguments and without safety decision, the executor of
    [app.py] returns one outcome for each function call of the reply, in
    order, passing over the parts that hold none. *)
Theorem app_answers_when_pages_load parts w :
  Forall (fun fc => ~ gated fc /\ has_args fc) (function_calls parts) ->
  exists rs w',
    App.execute_function_calls env parts SCREEN_WIDTH SCREEN_HEIGHT w = (Val rs, w')
    /\ rs.*1 = fc_name <$> function_calls parts.
Proof.
  intros Hok.
  destruct (app_exec_loop_total parts SCREEN_WIDTH SCREEN_HEIGHT [] w Hok)
    as (new & w' & Hrun & Hnames).
  exists new, w'. split; [exact Hrun | exact Hnames].
Qed.

End AppLoads.

Lemma app_answers_when_pages_load_witness :
  exists rs w',
    App.execute_function_calls calm
      [ {| text := Some "I click."; function_call := None |};
        request "click_at" centre; request "go_back" ∅ ]
      SCREEN_WIDTH SCREEN_HEIGHT (fresh []) = (Val rs, w')
    /\ rs.*1 = ["click_at"; "go_back"].
Proof.
  refine (app_answers_when_pages_load calm _ _ (fresh []) _).
  - intros tr state timeout. reflexivity.
  - repeat constructor; try (eexists; reflexivity);
      unfold gated; intros [v Hv]; vm_compute in Hv; discriminate Hv.
Defined.

(** ** Clicks *)

Section Clicks.
Variable env : Env.

Ltac click_leaf :=
  cbn [trace log fst snd];
  first
    [ left; split; [reflexivity | eexists; reflexivity]
    | right; eexists _, _, _, _; repeat split; try eassumption; eauto ].

(** X10: a [click_at] asks the browser for one thing at most, the click
    at the point its two coordinates map to; when a coordinate is missing
    or does not map (a string, say), nothing is asked of the browser and
    the operation raises, in each of the three scripts. *)
Theorem click_needs_both_coordinates args extra w :
  clicked denorm_x denorm_y args w (Agent.operate env "click_at" args extra w)
  /\ clicked denorm_x denorm_y args w (JobForm.operate env "click_at" args extra w)
  /\ clicked (fun x => denormalize_x x SCREEN_WIDTH) (fun y => denormalize_y y SCREEN_HEIGHT)
       args w (App.operate env "click_at" args SCREEN_WIDTH SCREEN_HEIGHT w).
Proof.
  split; [|split].
  - destruct (Agent.operate env "click_at" args extra w) as [r w'] eqn:Hrun.
    unfold Agent.operate in Hrun. cbn [String.eqb Ascii.eqb Bool.eqb] in Hrun.
    unfold Agent.point in Hrun. unfold clicked. exec; click_leaf.
  - destruct (JobForm.operate env "click_at" args extra w) as [r w'] eqn:Hrun.
    unfold JobForm.operate in Hrun. cbn [String.eqb Ascii.eqb Bool.eqb] in Hrun.
    unfold clicked. exec; click_leaf.
  - destruct (App.operate env "click_at" args SCREEN_WIDTH SCREEN_HEIGHT w)
      as [r w'] eqn:Hrun.
    unfold App.operate in Hrun. cbn [String.eqb Ascii.eqb Bool.eqb] in Hrun.
    unfold clicked. exec; click_leaf.
Qed.

End Clicks.

(** A coordinate given as a string: no click, an error in the outcome. *)
Example click_at_a_string :
  Agent.exec_calls calm
    [request "click_at" {[ "x" := VStr "500"; "y" := VInt 500 ]}] (fresh [])
  = (Val [("click_at",
           {[ "error" := VStr "unsupported operand type(s) for /: 'str' and 'int'" ]})],
     fresh []).
Proof. vm_compute. reflexivity. Qed.

(** ** Histories and budgets *)

Section Histories.
Variable env : Env.

Lemma quiet_calls evs : Forall quiet_event evs -> model_calls evs = 0%nat.
Proof.
  induction 1 as [|e evs He _ IH]; [reflexivity|].
  unfold model_calls in *. cbn [List.filter]. rewrite He. exact IH.
Qed.

Lemma grows_quiet contents evs tr :
  Forall quiet_event evs -> grows contents (evs ++ tr) <-> grows contents tr.
Proof.
  induction 1 as [|e evs He _ IH]; [reflexivity|].
  cbn [app grows]. destruct e; try exact IH. discriminate He.
Qed.

Lemma grows_weaken c1 c2 tr : c1 `prefix_of` c2 -> grows c2 tr -> grows c1 tr.
Proof.
  revert c1 c2. induction tr as [|e tr IH]; intros c1 c2 Hpre; [auto|].
  destruct e; cbn [grows]; try (apply IH; exact Hpre).
  intros [H12 Hrest]. split; [etrans; eassumption | exact Hrest].
Qed.

Lemma action_is_quiet e : action_event e -> quiet_event e.
Proof. destruct e; cbn; intros H; try reflexivity; destruct H. Qed.

Lemma build_is_quiet rs :
  emits quiet_event (Agent.build_function_responses env rs).
Proof.
  intros w. unfold Agent.build_function_responses, bind, screenshot, url, ret.
  destruct (page_error env (trace w) Screenshot); cbn [snd trace log].
  - exists [Screenshot]. split; [reflexivity | repeat constructor].
  - exists [Screenshot; ReadUrl]. rewrite <- app_assoc.
    split; [reflexivity | repeat constructor].
Qed.

(** The common shape of the three turn loops. *)
Section Loop.
Variable exec : list Part -> M (list Result).
Variable finish : list Part -> M Termination.
Variable loop : nat -> list Content -> M Termination.
Hypothesis exec_quiet : forall parts, emits quiet_event (exec parts).
Hypothesis finish_silent : forall parts w, trace (finish parts w).2 = trace w.
Hypothesis loop_O : forall contents, loop 0 contents = ret StepLimit.
Hypothesis loop_S : forall n contents,
  loop (S n) contents
  = (cand <- generate_content env contents ;;
     if negb (any_function_call cand)
     then finish cand
     else
       results <- exec cand ;;
       frs <- Agent.build_function_responses env results ;;
       loop n ((contents ++ [ModelContent cand]) ++ [UserResponses frs])).

Lemma first_call contents evs :
  Forall quiet_event evs ->
  (model_calls (GenerateContent contents :: evs) <= 1)%nat
  /\ grows contents (GenerateContent contents :: evs).
Proof.
  intros Hq. split.
  - change (GenerateContent contents :: evs) with ([GenerateContent contents] ++ evs).
    rewrite model_calls_app, (quiet_calls evs Hq). cbn. lia.
  - cbn [grows]. split; [reflexivity|].
    rewrite <- (app_nil_r evs). apply grows_quiet; [exact Hq | exact I].
Qed.

Lemma loop_bounded_history turns contents w :
  bounded_history turns contents w (loop turns contents w).
Proof.
  revert contents w. induction turns as [|n IH]; intros contents w.
  - rewrite loop_O. exists []. rewrite app_nil_r. repeat split. cbn. lia.
  - rewrite loop_S. unfold bind at 1, generate_content.
    set (w0 := log (GenerateContent contents) w).
    assert (Hstop : forall (A : Type) (x : Exc A) w' evs,
               trace w' = trace w0 ++ evs -> Forall quiet_event evs ->
               bounded_history (S n) contents w (x, w')).
    { intros A x w' evs Ht Hq. exists (GenerateContent contents :: evs).
      cbn [snd]. rewrite Ht. unfold w0. cbn [trace log]. rewrite <- app_assoc.
      destruct (first_call contents evs Hq) as [Hc Hg].
      split; [reflexivity|]. split; [lia | exact Hg]. }
    destruct (model_reply env (trace w) contents) as [cand|msg];
      [| apply (Hstop _ _ _ []); [symmetry; apply app_nil_r | constructor]].
    destruct (any_function_call cand); cbn [negb].
    + unfold bind at 1.
      destruct (exec_quiet cand w0) as (evs1 & Ht1 & Hq1).
      destruct (exec cand w0) as [[rs|msg] w1]; cbn [snd] in Ht1;
        [| exact (Hstop _ _ _ evs1 Ht1 Hq1)].
      unfold bind at 1.
      destruct (build_is_quiet rs w1) as (evs2 & Ht2 & Hq2).
      assert (Hq12 : Forall quiet_event (evs1 ++ evs2)) by (apply Forall_app; auto).
      destruct (Agent.build_function_responses env rs w1) as [[frs|msg] w2];
        cbn [snd] in Ht2; rewrite Ht1, <- app_assoc in Ht2;
        [| exact (Hstop _ _ _ (evs1 ++ evs2) Ht2 Hq12)].
      destruct (IH ((contents ++ [ModelContent cand]) ++ [UserResponses frs]) w2)
        as (evs3 & Ht3 & Hc3 & Hg3).
      exists (GenerateContent contents :: (evs1 ++ evs2) ++ evs3).
      rewrite Ht3, Ht2. unfold w0. cbn [trace log]. rewrite <- !app_assoc.
      split; [reflexivity|]. split.
      * change (GenerateContent contents :: evs1 ++ evs2 ++ evs3)
          with ([GenerateContent contents] ++ evs1 ++ evs2 ++ evs3).
        rewrite !model_calls_app, (quiet_calls evs1 Hq1), (quiet_calls evs2 Hq2).
        cbn. lia.
      * cbn [grows]. split; [reflexivity|].
        rewrite app_assoc. apply grows_quiet; [exact Hq12|].
        eapply grows_weaken; [|exact Hg3].
        rewrite <- app_assoc. apply prefix_app_r. reflexivity.
    + pose proof (finish_silent cand w0) as Hf.
      destruct (finish cand w0) as [x w']. cbn [snd] in Hf.
      apply (Hstop _ x w' []); [rewrite app_nil_r; exact Hf | constructor].
Qed.

End Loop.

Lemma agent_exec_quiet parts : emits quiet_event (Agent.exec_calls env parts).
Proof.
  eapply emits_weaken; [exact action_is_quiet | apply agent_exec_loop_emits].
Qed.

Lemma job_form_exec_quiet parts : emits quiet_event (JobForm.exec_calls env parts).
Proof.
  eapply emits_weaken; [exact action_is_quiet | apply job_form_exec_loop_emits].
Qed.

Lemma app_exec_quiet parts :
  emits quiet_event (App.execute_function_calls env parts SCREEN_WIDTH SCREEN_HEIGHT).
Proof.
  eapply emits_weaken; [exact action_is_quiet | apply app_exec_loop_emits].
Qed.

(** X11: however a run of a turn loop ends, in an answer, at the step
    limit or in an exception, it has called the model at most ten times,
    and each call was given a history that extends the history of the
    call before: nothing is ever taken out of the conversation. *)
Theorem history_only_grows contents w :
  bounded_history 10 contents w (Agent.agent_loop env 10 contents w)
  /\ bounded_history 10 contents w (JobForm.turn_loop env JobForm.TURN_LIMIT contents w)
  /\ bounded_history 10 contents w (AppSession.turn_loop env 10 contents w).
Proof.
  split; [|split].
  - apply (loop_bounded_history (Agent.exec_calls env)
             (fun cand => ret (Done (final_text cand))) (Agent.agent_loop env));
      [apply agent_exec_quiet | reflexivity..].
  - apply (loop_bounded_history (JobForm.exec_calls env)
             (fun cand => ret (Done (final_text cand))) (JobForm.turn_loop env));
      [apply job_form_exec_quiet | reflexivity..].
  - apply (loop_bounded_history
             (fun cand => App.execute_function_calls env cand SCREEN_WIDTH SCREEN_HEIGHT)
             (fun cand => text_output <- lift (AppSession.text_output cand) ;;
                          ret (Done text_output))
             (AppSession.turn_loop env));
      [apply app_exec_quiet | | reflexivity..].
    intros parts w'. unfold bind, lift, ret.
    destruct (AppSession.text_output parts); reflexivity.
Qed.

End Histories.

(** ** The final text *)

Section FinalText.
Variable env : Env.

Lemma join_items_find k parts :
  match list_find (fun p => text p = None) parts with
  | Some (i, _) =>
      AppSession.join_items k (map text parts)
      = Exn ("sequence item " +:+ pretty (k + i)%nat
             +:+ ": expected str instance, NoneType found")
  | None => AppSession.join_items k (map text parts) = Val (omap text parts)
  end.
Proof.
  revert k. induction parts as [|p parts IH]; intros k; [reflexivity|].
  cbn [list_find map AppSession.join_items]. case_decide as Hp.
  - rewrite Hp, Nat.add_0_r. reflexivity.
  - destruct (text p) as [t|] eqn:Ht; [|congruence].
    specialize (IH (S k)).
    destruct (list_find _ parts) as [[i q]|]; cbn [fmap option_fmap option_map prod_map fst snd].
    + rewrite IH. cbn. rewrite Nat.add_succ_r. reflexivity.
    + rewrite IH. cbn. rewrite Ht. reflexivity.
Qed.

(** X12: on a reply without function call, [agent.py] is done with the
    non-empty texts of the reply joined by blanks; [app.py] joins the texts
    of all parts and is done only if every part has one: at the first part
    whose text is [None] the join raises a [TypeError] that ends the
    session. *)
Theorem final_text_of_a_reply turns contents w parts :
  model_reply env (trace w) contents = Val parts ->
  any_function_call parts = false ->
  Agent.agent_loop env (S turns) contents w
  = (Val (Done (final_text parts)), log (GenerateContent contents) w)
  /\ AppSession.turn_loop env (S turns) contents w
     = (match list_find (fun p => text p = None) parts with
        | Some (i, _) =>
            Exn ("sequence item " +:+ pretty i
                 +:+ ": expected str instance, NoneType found")
        | None => Val (Done (String.concat " " (omap text parts)))
        end,
        log (GenerateContent contents) w).
Proof.
  intros Hrep Hfc. split.
  - cbn [Agent.agent_loop]. unfold bind at 1, generate_content.
    rewrite Hrep, Hfc. reflexivity.
  - cbn [AppSession.turn_loop]. unfold bind at 1, generate_content.
    rewrite Hrep, Hfc. cbn [negb]. unfold bind, lift, ret, AppSession.text_output.
    pose proof (join_items_find 0 parts) as Hjoin.
    destruct (list_find _ parts) as [[i q]|]; rewrite Hjoin; reflexivity.
Qed.

End FinalText.

Lemma final_text_of_a_reply_witness :
  Agent.agent_loop satisfied 1 goal_and_shot (fresh [])
  = (Val (Done "All done."), log (GenerateContent goal_and_shot) (fresh []))
  /\ AppSession.turn_loop satisfied 1 goal_and_shot (fresh [])
     = (Exn "sequence item 1: expected str instance, NoneType found",
        log (GenerateContent goal_and_shot) (fresh [])).
Proof.
  exact (final_text_of_a_reply satisfied 0 goal_and_shot (fresh [])
           [ {| text := Some "All"; function_call := None |};
             {| text := None; function_call := None |};
             {| text := Some "done."; function_call := None |} ]
           eq_refl eq_refl).
Defined.

(** ** The API key *)

Section ApiKey.

Lemma lstrip_shorter cs : (length (Py.lstrip_chars cs) <= length cs)%nat.
Proof.
  induction cs as [|c cs IH]; [reflexivity|].
  cbn [Py.lstrip_chars]. destruct (Py.is_space c); cbn [length]; lia.
Qed.

Lemma lstrip_idem cs : Py.lstrip_chars (Py.lstrip_chars cs) = Py.lstrip_chars cs.
Proof.
  induction cs as [|c cs IH]; [reflexivity|].
  cbn [Py.lstrip_chars]. destruct (Py.is_space c) eqn:Hc; [exact IH|].
  cbn [Py.lstrip_chars]. rewrite Hc. reflexivity.
Qed.

Lemma lstrip_split cs : exists pre, cs = pre ++ Py.lstrip_chars cs.
Proof.
  induction cs as [|c cs [pre IH]]; [exists []; reflexivity|].
  cbn [Py.lstrip_chars]. destruct (Py.is_space c).
  - exists (c :: pre). cbn [app]. rewrite <- IH. reflexivity.
  - exists []. reflexivity.
Qed.

Lemma lstrip_fixed_prefix l r t :
  Py.lstrip_chars l = l -> l = r ++ t -> Py.lstrip_chars r = r.
Proof.
  intros Hl ->. destruct r as [|c r]; [reflexivity|].
  cbn [app Py.lstrip_chars] in *. destruct (Py.is_space c); [|reflexivity].
  pose proof (lstrip_shorter (r ++ t)) as Hlen. rewrite Hl in Hlen.
  cbn [length] in Hlen. lia.
Qed.

Lemma strip_idempotent s : Py.strip (Py.strip s) = Py.strip s.
Proof.
  unfold Py.strip. rewrite list_ascii_of_string_of_list_ascii.
  set (l := Py.lstrip_chars (list_ascii_of_string s)).
  set (r := Py.lstrip_chars (rev l)).
  assert (Hl : Py.lstrip_chars l = l) by apply lstrip_idem.
  destruct (lstrip_split (rev l)) as [pre Hpre]. fold r in Hpre.
  assert (Hlr : l = rev r ++ rev pre).
  { rewrite <- (rev_involutive l), Hpre, rev_app_distr. reflexivity. }
  rewrite (lstrip_fixed_prefix l (rev r) (rev pre) Hl Hlr).
  rewrite rev_involutive. unfold r at 1. rewrite lstrip_idem. reflexivity.
Qed.

(** X13: on a key file that is missing or holds ASCII text, the three
    [load_api_key] return the same key or fail together.  They return the
    text of the file without the blanks around it, and only when this is
    not empty: a key is never empty and stripping it again changes
    nothing; a missing file and a blank file both raise. *)
Theorem api_key_is_trimmed (key_file : KeyFile) :
  plain key_file ->
  (exists content,
     key_file = Some content
     /\ Py.strip content <> EmptyString
     /\ Py.strip (Py.strip content) = Py.strip content
     /\ AgentStartup.load_api_key key_file = Val (Py.strip content)
     /\ JobFormStartup.load_api_key key_file = Val (Py.strip content)
     /\ AppStartup.load_api_key key_file = Val (Py.strip content))
  \/ ((key_file = None
       \/ exists content, key_file = Some content /\ Py.strip content = EmptyString)
      /\ (exists msg, AgentStartup.load_api_key key_file = Exn msg)
      /\ (exists msg, JobFormStartup.load_api_key key_file = Exn msg)
      /\ (exists msg, AppStartup.load_api_key key_file = Exn msg)).
Proof.
  intros _. destruct key_file as [content|].
  - unfold AgentStartup.load_api_key, JobFormStartup.load_api_key,
      AppStartup.load_api_key.
    cbv zeta.
    destruct (String.eqb (Py.strip content) EmptyString) eqn:Heq; cbn [negb].
    + apply String.eqb_eq in Heq. right. split; [right; eauto|].
      repeat split; eexists; reflexivity.
    + apply String.eqb_neq in Heq. left. exists content.
      repeat split; try reflexivity; [exact Heq | apply strip_idempotent].
  - right. split; [left; reflexivity|]. repeat split; eexists; reflexivity.
Qed.

End ApiKey.

Lemma api_key_is_trimmed_witness :
  AppStartup.load_api_key (Some "  AIza-123 ") = Val "AIza-123".
Proof.
  destruct (api_key_is_trimmed (Some "  AIza-123 ") eq_refl)
    as [(content & Hfile & _ & _ & _ & _ & Happ)|(_ & _ & _ & msg & Hmsg)].
  - injection Hfile as <-. exact Happ.
  - discriminate Hmsg.
Defined.

Example key_with_newline :
  AgentStartup.load_api_key (Some (" AIza-123 " +:+ String "010"%char EmptyString))
  = Val "AIza-123".
Proof. vm_compute. reflexivity. Qed.

(** ** The flags of [type_text_at], the wheel of [scroll_at] *)

Section Flags.
Variable env : Env.

Ltac adds_leaf tac :=
  unfold adds; cbn [trace log fst snd]; rewrite <- ?app_assoc; cbn [app];
  eexists; (split; [first [reflexivity | symmetry; apply app_nil_r]|]); cbv beta; tac.

Ltac by_computation := reflexivity.

Ltac all_differ :=
  repeat constructor; unfold enter, select_all, backspace; try split; discriminate.

(** X14: without [press_enter], [job_form.py] never presses Enter after
    typing, so that a form is not sent by accident, while a [type_text_at]
    of [agent.py] or of [app.py] that completes ends on Enter. *)
Theorem enter_defaults args extra w :
  args !! "press_enter" = None ->
  adds (Forall (fun e => e <> enter)) w
    (JobForm.operate env "type_text_at" args extra w)
  /\ (forall r, (Agent.operate env "type_text_at" args extra w).1 = Val r ->
        adds (fun evs => last evs = Some enter) w
          (Agent.operate env "type_text_at" args extra w))
  /\ (forall r,
        (App.operate env "type_text_at" args SCREEN_WIDTH SCREEN_HEIGHT w).1 = Val r ->
        adds (fun evs => last evs = Some enter) w
          (App.operate env "type_text_at" args SCREEN_WIDTH SCREEN_HEIGHT w)).
Proof.
  intros Hpe. split; [|split].
  - destruct (JobForm.operate env "type_text_at" args extra w) as [r w'] eqn:Hrun.
    unfold JobForm.operate in Hrun. cbn [String.eqb Ascii.eqb Bool.eqb] in Hrun.
    rewrite Hpe in Hrun. cbn [default Py.truthy] in Hrun.
    exec; adds_leaf all_differ.
  - intros r0.
    destruct (Agent.operate env "type_text_at" args extra w) as [r w'] eqn:Hrun.
    cbn [fst]. intros ->.
    unfold Agent.operate in Hrun. cbn [String.eqb Ascii.eqb Bool.eqb] in Hrun.
    rewrite Hpe in Hrun. cbn [default Py.truthy] in Hrun. unfold Agent.point in Hrun.
    exec; adds_leaf by_computation.
  - intros r0.
    destruct (App.operate env "type_text_at" args SCREEN_WIDTH SCREEN_HEIGHT w)
      as [r w'] eqn:Hrun.
    cbn [fst]. intros ->.
    unfold App.operate in Hrun. cbn [String.eqb Ascii.eqb Bool.eqb] in Hrun.
    rewrite Hpe in Hrun. cbn [default Py.truthy] in Hrun.
    exec; adds_leaf by_computation.
Qed.

(** X15: a [type_text_at] whose [clear_before_typing] is given and false
    leaves the content of the field alone: neither [agent.py] nor
    [job_form.py] selects all or deletes. *)
Theorem no_clearing_when_told args extra w v :
  args !! "clear_before_typing" = Some v ->
  Py.truthy v = false ->
  adds (Forall (fun e => e <> select_all /\ e <> backspace)) w
    (Agent.operate env "type_text_at" args extra w)
  /\ adds (Forall (fun e => e <> select_all /\ e <> backspace)) w
       (JobForm.operate env "type_text_at" args extra w).
Proof.
  intros Hc Hv. split.
  - destruct (Agent.operate env "type_text_at" args extra w) as [r w'] eqn:Hrun.
    unfold Agent.operate in Hrun. cbn [String.eqb Ascii.eqb Bool.eqb] in Hrun.
    rewrite Hc in Hrun. change (default (VBool true) (Some v)) with v in Hrun.
    rewrite Hv in Hrun.
    unfold Agent.point in Hrun.
    exec; adds_leaf all_differ.
  - destruct (JobForm.operate env "type_text_at" args extra w) as [r w'] eqn:Hrun.
    unfold JobForm.operate in Hrun. cbn [String.eqb Ascii.eqb Bool.eqb] in Hrun.
    rewrite Hc in Hrun. change (default (VBool true) (Some v)) with v in Hrun.
    rewrite Hv in Hrun.
    exec; adds_leaf all_differ.
Qed.


End Flags.

Lemma enter_defaults_witness :
  adds (Forall (fun e => e <> enter)) (fresh [])
    (JobForm.operate calm "type_text_at" hello ∅ (fresh [])).
Proof.
  refine (proj1 (enter_defaults calm hello ∅ (fresh []) _)). vm_compute. reflexivity.
Defined.

Lemma no_clearing_when_told_witness :
  adds (Forall (fun e => e <> select_all /\ e <> backspace)) (fresh [])
    (Agent.operate calm "type_text_at"
       (<[ "clear_before_typing" := VBool false ]> hello) ∅ (fresh [])).
Proof.
  refine (proj1 (no_clearing_when_told calm _ ∅ (fresh []) (VBool false) _ _));
    vm_compute; reflexivity.
Defined.

(** Appending to a field, Enter pressed by default. *)
Example append_hello :
  Agent.operate calm "type_text_at"
    (<[ "clear_before_typing" := VBool false ]> hello) ∅ (fresh [])
  = (Val ∅,
     {| trace := [MouseClick 720 450; KeyType (VStr "hello"); enter]; stdin := [] |}).
Proof. vm_compute. reflexivity. Qed.


(** A scroll to the "left" turns the wheel upwards. *)
Example scroll_left :
  Agent.operate calm "scroll_at" (<[ "direction" := VStr "left" ]> centre) ∅ (fresh [])
  = (Val ∅, {| trace := [MouseMove 720 450 None; MouseWheel 0 (-800)]; stdin := [] |}).
Proof. vm_compute. reflexivity. Qed.

(** ** A safety decision without explanation *)

Section Explanation.
Variable env : Env.

Lemma agent_ask_first lines tr :
  exists evs, trace (Agent.ask_loop lines tr).2 = tr ++ Input Agent.prompt :: evs.
Proof.
  destruct lines as [|line rest]; cbn [Agent.ask_loop].
  - exists []. reflexivity.
  - repeat case_bool_decide; try (exists []; reflexivity).
    destruct (agent_ask_loop_emits rest (tr ++ [Input Agent.prompt])) as (evs & Ht & _).
    exists evs. rewrite Ht, <- app_assoc. reflexivity.
Qed.

(** X17: [app.py] prints [safety_decision["explanation"]] before it asks:
    when the decision has no explanation the [KeyError] leaves the
    executor before any prompt and any browser operation, and the outcomes
    gathered so far in the turn are lost with it.  [agent.py] and
    [job_form.py] print it with [.get] and an empty default, and ask the
    operator all the same. *)
Theorem app_needs_an_explanation part fc args d rest results w :
  function_call part = Some fc ->
  fc_args fc = Some args ->
  args !! "safety_decision" = Some (VDict d) ->
  d !! "explanation" = None ->
  App.exec_loop env (part :: rest) SCREEN_WIDTH SCREEN_HEIGHT results w
  = (Exn "'explanation'", w)
  /\ prompts_first Agent.prompt w (Agent.exec_call env fc w)
  /\ prompts_first "Proceed? [y/N]: " w (JobForm.exec_call env fc w).
Proof.
  intros Hfc Hargs Hsd Hexp. split; [|split].
  - cbn [App.exec_loop]. unfold App.exec_part. rewrite Hfc, Hargs, Hsd.
    cbn [App.get_safety_confirmation]. rewrite Hexp. reflexivity.
  - unfold Agent.exec_call, prompts_first. rewrite Hargs. cbn [default from_option id].
    change (from_option id ∅ (Some args)) with args. rewrite Hsd.
    unfold bind at 1. cbn [Agent.ask_confirmation].
    destruct (agent_ask_first (stdin w) (trace w)) as (evs1 & Ht1).
    destruct (Agent.ask_loop (stdin w) (trace w)) as [[allowed|msg] w1];
      cbn [snd] in Ht1; [| eauto].
    assert (Hk : emits action_event
                   (if negb allowed
                    then ret (Returned (fc_name fc, {["error" := VStr "user_denied"]}))
                    else r <- Agent.attempt env (fc_name fc) args
                                {["safety_acknowledgement" := VBool true]} ;;
                         ret (Appended r))).
    { destruct allowed; cbn [negb]; [| apply emits_ret].
      apply emits_bind; [apply agent_attempt_emits | intros ?; apply emits_ret]. }
    destruct (Hk w1) as (evs2 & Ht2 & _).
    exists (evs1 ++ evs2). rewrite Ht2, Ht1, <- app_assoc. reflexivity.
  - unfold JobForm.exec_call, prompts_first. rewrite Hargs.
    change (from_option id ∅ (Some args)) with args. rewrite Hsd.
    unfold bind at 1. cbn [JobForm.ask_confirmation]. unfold bind at 1, input.
    destruct (stdin w) as [|line lines].
    + exists []. reflexivity.
    + cbn [ret].
      assert (Hk : forall allowed, emits action_event
                   (if negb allowed
                    then ret (Returned (fc_name fc, {["error" := VStr "user_denied"]}))
                    else r <- JobForm.attempt env (fc_name fc) args
                                {["safety_acknowledgement" := VBool true]} ;;
                         ret (Appended r))).
      { intros [|]; cbn [negb]; [| apply emits_ret].
        apply emits_bind; [apply job_form_attempt_emits | intros ?; apply emits_ret]. }
      match goal with
      | |- context [(if negb ?b then _ else _) ?w1] =>
          destruct (Hk b w1) as (evs2 & Ht2 & _)
      end.
      exists evs2. rewrite Ht2. cbn [trace]. rewrite <- app_assoc. reflexivity.
Qed.

End Explanation.

Lemma app_needs_an_explanation_witness :
  App.exec_loop calm
    [request "click_at" (<[ "safety_decision" := VDict ∅ ]> centre)]
    SCREEN_WIDTH SCREEN_HEIGHT [("go_back", ∅)] (fresh ["y"])
  = (Exn "'explanation'", fresh ["y"]).
Proof.
  refine (proj1 (app_needs_an_explanation calm
                   (request "click_at" (<[ "safety_decision" := VDict ∅ ]> centre))
                   {| fc_name := "click_at";
                      fc_args := Some (<[ "safety_decision" := VDict ∅ ]> centre) |}
                   (<[ "safety_decision" := VDict ∅ ]> centre)
                   ∅ [] [("go_back", ∅)] (fresh ["y"]) eq_refl eq_refl _ _));
    vm_compute; reflexivity.
Defined.

(** ** Dragging *)

Section Drag.
Variable env : Env.

(** X18: a [drag_and_drop] of [agent.py] touches the mouse only when its
    four coordinates are present and map, and what it then asks is an
    initial part of: move to the source, press, move to the destination in
    ten steps, release.  It has no handler of its own: when the second move
    raises, the button is left pressed. *)
Theorem drag_and_drop_steps args extra w :
  let run := Agent.operate env "drag_and_drop" args extra w in
  (trace run.2 = trace w /\ exists msg, run.1 = Exn msg)
  \/ exists x y x' y' sx sy dx dy evs,
       args !! "x" = Some x /\ args !! "y" = Some y
       /\ args !! "destination_x" = Some x' /\ args !! "destination_y" = Some y'
       /\ denorm_x x = Val sx /\ denorm_y y = Val sy
       /\ denorm_x x' = Val dx /\ denorm_y y' = Val dy
       /\ trace run.2 = trace w ++ evs
       /\ evs `prefix_of` drag_script sx sy dx dy
       /\ (forall r, run.1 = Val r -> evs = drag_script sx sy dx dy).
Proof.
  cbv zeta.
  destruct (Agent.operate env "drag_and_drop" args extra w) as [r w'] eqn:Hrun.
  unfold Agent.operate in Hrun. cbn [String.eqb Ascii.eqb Bool.eqb] in Hrun.
  unfold Agent.point in Hrun. unfold drag_script. cbn [fst snd].
  exec.
  all: cbn [trace log fst snd]; rewrite <- ?app_assoc; cbn [app].
  all: first
    [ left; split; [reflexivity | eexists; reflexivity]
    | right; eexists _, _, _, _, _, _, _, _, _;
      do 8 (split; [first [eassumption | symmetry; eassumption]|]);
      split; [reflexivity|]; split; [eexists; reflexivity|];
      intros ? ?; simplify_eq; reflexivity ].
Qed.

End Drag.

(** The button stays down when the move to the destination fails. *)
Example drag_left_hanging :
  let env := {| page_error := fun _ e =>
                  match e with MouseMove _ _ (Some _) => Some "Target closed" | _ => None end;
                page_png := fun _ => "PNG";
                page_url := fun _ => "about:blank";
                model_reply := fun _ _ => Val [] |} in
  Agent.exec_calls env
    [request "drag_and_drop"
       {[ "x" := VInt 100; "y" := VInt 100;
          "destination_x" := VInt 900; "destination_y" := VInt 500 ]}] (fresh [])
  = (Val [("drag_and_drop", {[ "error" := VStr "Target closed" ]})],
     {| trace := [MouseMove 144 90 None; MouseDown; MouseMove 1296 450 (Some 10)];
        stdin := [] |}).
Proof. vm_compute. reflexivity. Qed.

(** ** Which names are known *)

Section Known.
Variable env : Env.

Lemma eqb_unknown (names : list string) name known :
  name ∉ names -> known ∈ names -> String.eqb name known = false.
Proof.
  intros Hout Hin. apply String.eqb_neq. intros ->. exact (Hout Hin).
Qed.

Lemma agent_known_keeps_extra name args extra :
  name ∈ vocabulary ->
  returns_in (fun extra' => extra' = extra) (Agent.operate env name args extra).
Proof.
  intros Hin. unfold vocabulary in Hin.
  repeat (apply elem_of_cons in Hin as [->|Hin];
          [unfold Agent.operate; cbn [String.eqb Ascii.eqb Bool.eqb];
           returns_auto; reflexivity|]).
  apply elem_of_nil in Hin. destruct Hin.
Qed.

Lemma job_form_known_keeps_meta name args meta :
  name ∈ job_form_vocabulary ->
  returns_in (fun meta' => meta' = meta) (JobForm.operate env name args meta).
Proof.
  intros Hin. unfold job_form_vocabulary in Hin.
  repeat (apply elem_of_cons in Hin as [->|Hin];
          [unfold JobForm.operate; cbn [String.eqb Ascii.eqb Bool.eqb];
           returns_auto; reflexivity|]).
  apply elem_of_nil in Hin. destruct Hin.
Qed.

Lemma job_form_unknown name args meta w :
  name ∉ job_form_vocabulary ->
  JobForm.operate env name args meta w
  = (Val (<["warning" := VStr "unimplemented"]> meta), w).
Proof.
  intros Hout. unfold JobForm.operate.
  rewrite !(eqb_unknown job_form_vocabulary name)
    by (exact Hout || (unfold job_form_vocabulary; set_solver)).
  reflexivity.
Qed.

Lemma app_unknown fname args sw sh w :
  fname ∉ app_vocabulary -> App.operate env fname args sw sh w = (Val tt, w).
Proof.
  intros Hout. unfold App.operate.
  rewrite !(eqb_unknown app_vocabulary fname)
    by (exact Hout || (unfold app_vocabulary; set_solver)).
  reflexivity.
Qed.

(** X19: the chain of branches marks an outcome with the warning exactly
    when the script does not know the name of the action.  [agent.py]
    knows thirteen names and [job_form.py] six; for every other name the
    chain asks nothing of the browser and sets the marker, and for a name
    they know it never does.  [app.py] knows five names; for any other,
    [navigate] and [go_back] among them, its chain asks nothing of the
    browser and leaves no mark. *)
Theorem warning_iff_unknown name args extra w :
  extra !! "warning" = None ->
  (forall extra' w',
     Agent.operate env name args extra w = (Val extra', w') ->
     (is_Some (extra' !! "warning") <-> name ∉ vocabulary))
  /\ (name ∉ vocabulary ->
      Agent.operate env name args extra w
      = (Val (<["warning" := VStr "unimplemented_action"]> extra), w))
  /\ (forall meta' w',
        JobForm.operate env name args extra w = (Val meta', w') ->
        (is_Some (meta' !! "warning") <-> name ∉ job_form_vocabulary))
  /\ (name ∉ job_form_vocabulary ->
      JobForm.operate env name args extra w
      = (Val (<["warning" := VStr "unimplemented"]> extra), w))
  /\ (name ∉ app_vocabulary ->
      App.operate env name args SCREEN_WIDTH SCREEN_HEIGHT w = (Val tt, w)).
Proof.
  intros Hfresh.
  split; [|split; [|split; [|split]]].
  - intros extra' w' Hrun. destruct (decide (name ∈ vocabulary)) as [Hin|Hout].
    + rewrite (agent_known_keeps_extra name args extra Hin _ _ _ Hrun), Hfresh.
      split; [intros [? H]; discriminate H | intros H; destruct (H Hin)].
    + destruct (agent_unrecognized env name args extra w Hout) as [Hop _].
      rewrite Hop in Hrun. injection Hrun as <- _.
      rewrite lookup_insert_eq. split; [intros _; exact Hout | eauto].
  - intros Hout. exact (proj1 (agent_unrecognized env name args extra w Hout)).
  - intros meta' w' Hrun. destruct (decide (name ∈ job_form_vocabulary)) as [Hin|Hout].
    + rewrite (job_form_known_keeps_meta name args extra Hin _ _ _ Hrun), Hfresh.
      split; [intros [? H]; discriminate H | intros H; destruct (H Hin)].
    + rewrite (job_form_unknown name args extra w Hout) in Hrun. injection Hrun as <- _.
      rewrite lookup_insert_eq. split; [intros _; exact Hout | eauto].
  - apply job_form_unknown.
  - apply app_unknown.
Qed.

End Known.

Lemma warning_iff_unknown_witness :
  JobForm.operate calm "hover_at" centre ∅ (fresh [])
  = (Val {[ "warning" := VStr "unimplemented" ]}, fresh [])
  /\ App.operate calm "navigate" {[ "url" := VStr "https://example.com" ]}
       SCREEN_WIDTH SCREEN_HEIGHT (fresh [])
     = (Val tt, fresh []).
Proof.
  pose proof (warning_iff_unknown calm "hover_at" centre ∅ (fresh []) eq_refl)
    as (_ & _ & _ & Hj & _).
  pose proof (warning_iff_unknown calm "navigate" {[ "url" := VStr "https://example.com" ]}
                ∅ (fresh []) eq_refl) as (_ & _ & _ & _ & Ha).
  split.
  - apply Hj. unfold job_form_vocabulary. intros Hin.
    repeat (apply elem_of_cons in Hin as [Hin|Hin]; [discriminate Hin|]).
    apply elem_of_nil in Hin. exact Hin.
  - apply Ha. unfold app_vocabulary. intros Hin.
    repeat (apply elem_of_cons in Hin as [Hin|Hin]; [discriminate Hin|]).
    apply elem_of_nil in Hin. exact Hin.
Defined.

(** ** Turns compose *)

Section Compose.
Variable env : Env.

Lemma agent_exec_loop_app a b results w :
  Forall (fun fc => ~ gated fc) a ->
  Agent.exec_loop env (a ++ b) results w
  = (rs <- Agent.exec_loop env a results ;; Agent.exec_loop env b rs) w.
Proof.
  intros Hfree. revert results w.
  induction Hfree as [|fc a Hfc _ IH]; intros results w; [reflexivity|].
  cbn [app Agent.exec_loop].
  pose proof (agent_exec_call_cases env fc w) as Hcases. unfold bind.
  destruct (Agent.exec_call env fc w) as [[[r|r]|msg] w1].
  - exact (IH (results ++ [r]) w1).
  - destruct Hfc. exact (proj2 Hcases).
  - reflexivity.
Qed.

Lemma job_form_exec_loop_app a b results w :
  Forall (fun fc => ~ gated fc) a ->
  JobForm.exec_loop env (a ++ b) results w
  = (rs <- JobForm.exec_loop env a results ;; JobForm.exec_loop env b rs) w.
Proof.
  intros Hfree. revert results w.
  induction Hfree as [|fc a Hfc _ IH]; intros results w; [reflexivity|].
  cbn [app JobForm.exec_loop].
  pose proof (job_form_exec_call_cases env fc w) as Hcases. unfold bind.
  destruct (JobForm.exec_call env fc w) as [[[r|r]|msg] w1].
  - exact (IH (results ++ [r]) w1).
  - destruct Hfc. exact (proj2 Hcases).
  - reflexivity.
Qed.

Lemma agent_exec_loop_acc fcs results w :
  Agent.exec_loop env fcs results w
  = (rs <- Agent.exec_loop env fcs [] ;; ret (results ++ rs)) w.
Proof.
  revert results w. induction fcs as [|fc rest IH]; intros results w;
    cbn [Agent.exec_loop].
  - unfold bind, ret. rewrite app_nil_r. reflexivity.
  - unfold bind. destruct (Agent.exec_call env fc w) as [[[r|r]|msg] w1].
    + rewrite (IH (results ++ [r]) w1), (IH ([] ++ [r]) w1). unfold bind, ret.
      destruct (Agent.exec_loop env rest [] w1) as [[rs|msg] w2]; [|reflexivity].
      rewrite <- app_assoc. reflexivity.
    + reflexivity.
    + reflexivity.
Qed.

Lemma job_form_exec_loop_acc fcs results w :
  JobForm.exec_loop env fcs results w
  = (rs <- JobForm.exec_loop env fcs [] ;; ret (results ++ rs)) w.
Proof.
  revert results w. induction fcs as [|fc rest IH]; intros results w;
    cbn [JobForm.exec_loop].
  - unfold bind, ret. rewrite app_nil_r. reflexivity.
  - unfold bind. destruct (JobForm.exec_call env fc w) as [[[r|r]|msg] w1].
    + rewrite (IH (results ++ [r]) w1), (IH ([] ++ [r]) w1). unfold bind, ret.
      destruct (JobForm.exec_loop env rest [] w1) as [[rs|msg] w2]; [|reflexivity].
      rewrite <- app_assoc. reflexivity.
    + reflexivity.
    + reflexivity.
Qed.

Lemma function_calls_app (p q : list Part) :
  function_calls (p ++ q) = function_calls p ++ function_calls q.
Proof. apply omap_app. Qed.

(** X20: a reply can be cut in two wherever the first piece holds no
    safety decision: the executor of [agent.py] and that of [job_form.py]
    do to the browser, ask of the operator and return on the parts
    [p ++ q] what they do on [p] and then on [q], the outcomes of the
    second run put after those of the first, and raise when either run
    does. *)
Theorem ungated_turns_compose p q w :
  Forall (fun fc => ~ gated fc) (function_calls p) ->
  Agent.exec_calls env (p ++ q) w
  = (rs1 <- Agent.exec_calls env p ;;
     rs2 <- Agent.exec_calls env q ;;
     ret (rs1 ++ rs2)) w
  /\ JobForm.exec_calls env (p ++ q) w
     = (rs1 <- JobForm.exec_calls env p ;;
        rs2 <- JobForm.exec_calls env q ;;
        ret (rs1 ++ rs2)) w.
Proof.
  intros Hfree. unfold Agent.exec_calls, JobForm.exec_calls.
  rewrite function_calls_app. split.
  - rewrite (agent_exec_loop_app _ _ _ _ Hfree). unfold bind at 1 2.
    destruct (Agent.exec_loop env (function_calls p) [] w) as [[rs1|msg] w1];
      [|reflexivity].
    apply agent_exec_loop_acc.
  - rewrite (job_form_exec_loop_app _ _ _ _ Hfree). unfold bind at 1 2.
    destruct (JobForm.exec_loop env (function_calls p) [] w) as [[rs1|msg] w1];
      [|reflexivity].
    apply job_form_exec_loop_acc.
Qed.

End Compose.

Lemma ungated_turns_compose_witness :
  Agent.exec_calls calm
    ([request "go_back" ∅] ++ [request "click_at" (risky centre)]) (fresh ["n"])
  = (rs1 <- Agent.exec_calls calm [request "go_back" ∅] ;;
     rs2 <- Agent.exec_calls calm [request "click_at" (risky centre)] ;;
     ret (rs1 ++ rs2)) (fresh ["n"]).
Proof.
  refine (proj1 (ungated_turns_compose calm _ _ (fresh ["n"]) _)).
  repeat constructor. unfold gated. intros [v Hv]. vm_compute in Hv. discriminate Hv.
Defined.
